(** * llmade: rate limiter, prompt engine, JSON parser, text splitter and
    document prompt (src/lib/llm.js, src/lib/limiter.js), shallow embedding. *)

From Stdlib Require Import Floats.
From Stdlib Require Import ZArith QArith Qround String Ascii List Bool Lia Lqa.
Import ListNotations.
Open Scope string_scope.
Open Scope Z_scope.

(** ** JavaScript values *)

(** A JS number: a finite value, [Infinity] ([-Infinity] when [neg]), or
    NaN (what arithmetic on an [undefined] price yields). *)
Inductive num : Type :=
| Fin (q : Q)
| Inf (neg : bool)
| NaN.

(** [x + y] on numbers. *)
Definition num_add (x y : num) : num :=
  match x, y with
  | Fin a, Fin b => Fin (a + b)%Q
  | Fin _, Inf s | Inf s, Fin _ => Inf s
  | Inf s, Inf t => if Bool.eqb s t then Inf s else NaN
  | _, _ => NaN
  end.

(** [x * y] on numbers: an infinity times 0 is NaN. *)
Definition num_mul (x y : num) : num :=
  match x, y with
  | Fin a, Fin b => Fin (a * b)%Q
  | Fin a, Inf s | Inf s, Fin a =>
    if Qeq_bool a 0 then NaN else Inf (xorb s (negb (Qle_bool 0 a)))
  | Inf s, Inf t => Inf (xorb s t)
  | _, _ => NaN
  end.

(** [x || 0] on a number: NaN and 0 are falsy (and [0 || 0] is 0). *)
Definition num_or0 (x : num) : num :=
  match x with
  | NaN => Fin 0
  | _ => x
  end.

(** *** Doubles

    [excerptTokenLength / totalTextTokenLength * 100] is computed on doubles:
    primitive floats, with [Prim2SF] giving the exact value of a double. *)

(** The double nearest an integer. *)
Definition float_of_Z (z : Z) : float :=
  SF2Prim (SpecFloat.binary_normalize prec emax z 0 false).

(** The exact value (-1)^s * m * 2^e of a finite double. *)
Definition sfToQ (s : bool) (m : positive) (e : Z) : Q :=
  let n := if s then Zneg m else Zpos m in
  match e with
  | Z0 => inject_Z n
  | Zpos p => inject_Z (n * Zpos (2 ^ p))
  | Zneg p => Qmake n (2 ^ p)
  end.

(** The number a double denotes ([-0] is read as 0). *)
Definition floatToNum (x : float) : num :=
  match Prim2SF x with
  | S754_zero _ => Fin 0
  | S754_infinity s => Inf s
  | S754_nan => NaN
  | S754_finite s m e => Fin (sfToQ s m e)
  end.

(** [Math.round(x)]: NaN, the infinities and the zeros are returned as
    they are; otherwise the integer floor(x + 1/2) (the nearest one, ties
    towards +Infinity), as -0 when x lies in [-0.5, 0). *)
Definition jsRound (x : float) : float :=
  match Prim2SF x with
  | S754_finite s m e =>
    let r := Qfloor (sfToQ s m e + (1 # 2)) in
    if r =? 0 then (if s then (-0)%float else 0%float) else float_of_Z r
  | _ => x
  end.

(** Values carried in the prompt data objects. Objects and arrays (a parsed
    response such as a Zod array) are kept as their JSON text. *)
Inductive value : Type :=
| VUndef
| VBool (b : bool)
| VNum (x : num)
| VStr (s : string)
| VObj (json : string).

Definition VInt (n : Z) : value := VNum (Fin (inject_Z n)).

Definition truthy (v : value) : bool :=
  match v with
  | VUndef => false
  | VBool b => b
  | VNum (Fin q) => negb (Qeq_bool q 0)
  | VNum (Inf _) => true
  | VNum NaN => false
  | VStr s => negb (String.eqb s EmptyString)
  | VObj _ => true
  end.

(** [a || b] on values. *)
Definition value_or (a b : value) : value := if truthy a then a else b.

(** A plain JS object used as a dictionary: an association list whose
    first binding of a key wins. *)
Definition Data := list (string * value).

Fixpoint lookup (k : string) (d : Data) : value :=
  match d with
  | [] => VUndef
  | (k', v) :: d' => if String.eqb k k' then v else lookup k d'
  end.

(** [_.extend(a, b)]: the keys of [b] override those of [a]. *)
Definition extend (a b : Data) : Data := (b ++ a)%list.

(** ** Model (llm.js, class Model) *)

(** Prices are [undefined] when the settings passed to the constructor do
    not carry them. *)
Record Model := mkModel {
  modelName : string;
  maxTokens : Z;
  tokenTxPrice : option Q;
  tokensRxPrice : option Q
}.

(** [calculateCost(tokensSent, tokensReceived)] on integer token counts. *)
Definition calculateCost (m : Model) (tokensSent tokensReceived : Z) : num :=
  match tokenTxPrice m, tokensRxPrice m with
  | Some tx, Some rx => Fin (inject_Z tokensSent * tx + rx * inject_Z tokensReceived)%Q
  | _, _ => NaN
  end.

(** ** The model registries (llm.js, [models] and [rateLimiters]) *)

(** [m.modelName.match(/^gpt/i)]: the name starts with g, p, t in either
    case. *)
Definition isGptName (name : string) : bool :=
  match name with
  | String a (String b (String c _)) =>
    ((a =? "g")%char || (a =? "G")%char) && ((b =? "p")%char || (b =? "P")%char)
    && ((c =? "t")%char || (c =? "T")%char)
  | _ => false
  end.

(** The properties a plain object inherits from [Object.prototype]. *)
Definition objectPrototypeKeys : list string :=
  ["constructor"; "__defineGetter__"; "__defineSetter__"; "hasOwnProperty";
   "__lookupGetter__"; "__lookupSetter__"; "isPrototypeOf"; "propertyIsEnumerable";
   "toString"; "valueOf"; "__proto__"; "toLocaleString"].

Definition isObjectPrototypeKey (k : string) : bool :=
  existsb (String.eqb k) objectPrototypeKeys.

(** What [obj[key]] reads on a plain object: an own property, the property
    of that name inherited from [Object.prototype] (a method, or the
    prototype itself for [__proto__]), or [undefined]. *)
Inductive propRead (A : Type) : Type :=
| Own (a : A)
| Inherited (key : string)
| Missing.
Arguments Own {A} a.
Arguments Inherited {A} key.
Arguments Missing {A}.

(** The own property of a key, if any. *)
Fixpoint ownGet {A} (k : string) (o : list (string * A)) : option A :=
  match o with
  | [] => None
  | (k', v) :: o' => if String.eqb k k' then Some v else ownGet k o'
  end.

(** [obj[key]] on a plain object. *)
Definition objGet {A} (k : string) (o : list (string * A)) : propRead A :=
  match ownGet k o with
  | Some v => Own v
  | None => if isObjectPrototypeKey k then Inherited k else Missing
  end.

(** [obj[key] = value]: an existing key is overwritten in place, a new one
    is added last. *)
Fixpoint objSet {A} (k : string) (v : A) (o : list (string * A)) : list (string * A) :=
  match o with
  | [] => [(k, v)]
  | (k', v') :: o' => if String.eqb k k' then (k', v) :: o' else (k', v') :: objSet k v o'
  end.

(** [require('../settings.json').models.filter(m => m.modelName.match(/^gpt/i))]
    over the entries of the settings file, seen through the fields the
    [Model] constructor reads. *)
Definition gptSettings (settings : list Model) : list Model :=
  filter (fun m => isGptName (modelName m)) settings.

(** [modelSettings.reduce((acc, settings) => { acc[settings.modelName] =
    new X(settings); return acc; }, {})], for [X] = [Model] ([mk] the
    identity) and [X] = [RateLimiter]. *)
Definition registry {A} (mk : Model -> A) (settings : list Model) : list (string * A) :=
  fold_left (fun acc s => objSet (modelName s) (mk s) acc) (gptSettings settings) [].

Definition models (settings : list Model) : list (string * Model) := registry (fun m => m) settings.

(** ** Rate limiter (limiter.js, class RateLimiter over Bottleneck) *)

(** A Bottleneck reservoir: the count still available and the amount it is
    reset to every 60 seconds. *)
Record Reservoir := mkReservoir {
  available : Z;
  refreshAmount : Z
}.

Record RateLimiter := mkRateLimiter {
  requestLimiter : Reservoir;
  tokenLimiter : Reservoir
}.

(** [new RateLimiter({maxRequestsPerMinute, maxTokensPerMinute,
    bufferPercentage})]: both reservoirs start at, and refill to,
    [floor(limit * bufferPercentage)]. *)
Definition newReservoir (limit : Z) (bufferPercentage : Q) : Reservoir :=
  let n := Qfloor (inject_Z limit * bufferPercentage) in
  mkReservoir n n.

Definition newRateLimiter (maxRequestsPerMinute maxTokensPerMinute : Z)
    (bufferPercentage : Q) : RateLimiter :=
  mkRateLimiter (newReservoir maxRequestsPerMinute bufferPercentage)
                (newReservoir maxTokensPerMinute bufferPercentage).

Definition defaultBufferPercentage : Q := 8 # 10.

(** A job of weight 1 starts only when the reservoir holds at least 1;
    otherwise it stays queued. *)
Definition schedule (r : Reservoir) : option Reservoir :=
  if 1 <=? available r then Some (mkReservoir (available r - 1) (refreshAmount r))
  else None.

Definition incrementReservoir (r : Reservoir) (n : Z) : Reservoir :=
  mkReservoir (available r + n) (refreshAmount r).

(** The fixed 60 s refresh: the reservoir is reset, not trickled. *)
Definition refresh (r : Reservoir) : Reservoir :=
  mkReservoir (refreshAmount r) (refreshAmount r).

Definition refreshLimiter (l : RateLimiter) : RateLimiter :=
  mkRateLimiter (refresh (requestLimiter l)) (refresh (tokenLimiter l)).

(** ** Effects: a state monad with errors and suspension *)

(** What the running program observably does with the outside world. *)
Inductive event : Type :=
| EvComplete (promptData : Data)   (* completion capability ([chain.call]) invoked *)
| EvRepair (text : string)         (* repair capability ([fixingParser.parse]) invoked *)
| EvSleep (ms : Z).                (* [await Delay(ms)] *)

(** The shared world: the model's rate limiter (one per model name, shared by
    the prompt's model and its parser's model) and the event trace. *)
Record World := mkWorld {
  limiter : RateLimiter;
  trace : list event
}.

(** A computation ends by suspending forever (waiting on a reservoir that is
    never refilled), by throwing, or by returning. *)
Inductive Out (S A : Type) : Type :=
| Susp
| Err (e : string) (s : S)
| Ok (a : A) (s : S).
Arguments Susp {S A}.
Arguments Err {S A} e s.
Arguments Ok {S A} a s.

Definition M (S A : Type) : Type := S -> Out S A.

Definition ret {S A} (a : A) : M S A := fun s => Ok a s.

Definition bind {S A B} (m : M S A) (f : A -> M S B) : M S B :=
  fun s => match m s with
           | Susp => Susp
           | Err e s' => Err e s'
           | Ok a s' => f a s'
           end.

Notation "x <- m ;; k" := (bind m (fun x => k))
  (at level 61, m at next level, right associativity).
Notation "' p <- m ;; k" := (bind m (fun x => match x with p => k end))
  (at level 61, p pattern, m at next level, right associativity).
Notation "m ;;; k" := (bind m (fun _ => k)) (at level 61, right associativity).

Definition throw {S A} (e : string) : M S A := fun s => Err e s.
Definition suspend {S A} : M S A := fun _ => Susp.
Definition get {S} : M S S := fun s => Ok s s.
Definition put {S} (s : S) : M S unit := fun _ => Ok tt s.
Definition modify {S} (f : S -> S) : M S unit := fun s => Ok tt (f s).

(** [try { m } catch (e) { h(e) }] *)
Definition try_catch {S A} (m : M S A) (h : string -> M S A) : M S A :=
  fun s => match m s with
           | Err e s' => h e s'
           | o => o
           end.

(** States that embed the world. *)
Class HasWorld (S : Type) := {
  world : S -> World;
  set_world : World -> S -> S
}.

#[global] Instance World_HasWorld : HasWorld World := {
  world := fun w => w;
  set_world := fun w _ => w
}.

Definition getWorld {S} `{HasWorld S} : M S World := s <- get ;; ret (world s).
Definition putWorld {S} `{HasWorld S} (w : World) : M S unit := modify (set_world w).
Definition logEvent {S} `{HasWorld S} (ev : event) : M S unit :=
  w <- getWorld ;; putWorld (mkWorld (limiter w) (trace w ++ [ev])).
Definition setLimiter {S} `{HasWorld S} (l : RateLimiter) : M S unit :=
  w <- getWorld ;; putWorld (mkWorld l (trace w)).

Fixpoint count_complete (t : list event) : nat :=
  match t with
  | [] => O
  | EvComplete _ :: t' => S (count_complete t')
  | _ :: t' => count_complete t'
  end.

Fixpoint count_repair (t : list event) : nat :=
  match t with
  | [] => O
  | EvRepair _ :: t' => S (count_repair t')
  | _ :: t' => count_repair t'
  end.

(** ** RateLimiter.process (limiter.js) *)

(** A task hands back its value and the calls it made to [reportTokens],
    each with its arguments (a first one and any further ones). *)
Definition ReportCall := (Z * list Z)%type.

(** [const reportTokens = (count) => { tokensUsed = count; };] *)
Definition reportTokens (tokensUsed : Z) (args : ReportCall) : Z := fst args.

Definition tokensUsedAfter (calls : list ReportCall) : Z :=
  fold_left reportTokens calls 0.

(** [process(func)]: a job on the request limiter wrapping a job on the
    token limiter; each job of weight 1 waits for its reservoir; after [func]
    returns, the token reservoir is incremented by [-tokensUsed]. *)
Definition process {S A} `{HasWorld S} (func : M S (A * list ReportCall)) : M S A :=
  w <- getWorld ;;
  let l := limiter w in
  match schedule (requestLimiter l) with
  | None => suspend
  | Some rq =>
    match schedule (tokenLimiter l) with
    | None => suspend
    | Some tk =>
      setLimiter (mkRateLimiter rq tk) ;;;
      '(response, calls) <- func ;;
      w2 <- getWorld ;;
      let l2 := limiter w2 in
      setLimiter (mkRateLimiter (requestLimiter l2)
                   (incrementReservoir (tokenLimiter l2) (- tokensUsedAfter calls))) ;;;
      ret response
    end
  end.

(** ** External capabilities *)

(** The completion service, the schema parsers, the tokenizer,
    [JSON.stringify] and the engine's conversions between numbers, objects
    and strings. The completion and the repair are indexed by how many
    such calls were made before, so a run may see different answers on
    different attempts. A thrown error is [inl message]. *)
Record Env := mkEnv {
  complete : nat -> Data -> string + string;    (* chain.call(promptData).text *)
  directParse : string -> option value;         (* StructuredOutputParser.parse *)
  fixParse : nat -> string -> string + value;   (* OutputFixingParser.parse *)
  numTokens : string -> Z;                      (* Model.countTokens (tokenizer) *)
  stringify : value -> string;                  (* JSON.stringify *)
  tokenSplit : Z -> Z -> string -> list string; (* TokenTextSplitter({chunkSize,
                                                   chunkOverlap}).createDocuments,
                                                   page contents *)
  numToString : num -> string;                  (* Number::toString *)
  objToString : string -> string;               (* ToPrimitive of an object or array *)
  strToNumber : string -> num                   (* StringToNumber *)
}.

(** [ToString] of a value. *)
Definition jsToString (env : Env) (v : value) : string :=
  match v with
  | VUndef => "undefined"
  | VBool b => if b then "true" else "false"
  | VNum x => numToString env x
  | VStr s => s
  | VObj j => objToString env j
  end.

(** [ToNumber] of a value. *)
Definition jsToNumber (env : Env) (v : value) : num :=
  match v with
  | VUndef => NaN
  | VBool b => Fin (if b then 1 else 0)%Q
  | VNum x => x
  | VStr s => strToNumber env s
  | VObj j => strToNumber env (objToString env j)
  end.

(** Whether [ToPrimitive] gives a string: a string, an object or an array. *)
Definition toPrimitiveIsString (v : value) : bool :=
  match v with
  | VStr _ | VObj _ => true
  | _ => false
  end.

(** [a + b] on values: a concatenation when either side is a string after
    [ToPrimitive], a numeric addition otherwise. *)
Definition js_add (env : Env) (a b : value) : value :=
  if toPrimitiveIsString a || toPrimitiveIsString b then VStr (jsToString env a ++ jsToString env b)
  else VNum (num_add (jsToNumber env a) (jsToNumber env b)).

(** [calculateCost(tokensSent, tokensReceived)] where [tokensReceived] may be
    any value: [(tokensSent * tokenTxPrice) + (tokensRxPrice * tokensReceived)]. *)
Definition calculateCostV (env : Env) (m : Model) (tokensSent : Z) (tokensReceived : value) : num :=
  match tokenTxPrice m, tokensRxPrice m with
  | Some tx, Some rx =>
    num_add (Fin (inject_Z tokensSent * tx)%Q) (num_mul (Fin rx) (jsToNumber env tokensReceived))
  | _, _ => NaN
  end.

(** ** JSONParser (llm.js) *)

(** [new JSONParser(schema, modelName)] builds its model as
    [new Model({modelName, temperature: 0})]: no prices are passed, so
    [tokenTxPrice] and [tokensRxPrice] are [undefined] (so is [maxTokens],
    which [parse] never reads; it is 0 here). Its [rateLimiter] is the shared
    one of [modelName], which is [limiter] of the world. *)
Definition parserModel (modelName : string) : Model :=
  mkModel modelName 0 None None.

Record JSONParser := mkJSONParser { jmodel : Model }.

Definition newJSONParser (modelName : string) : JSONParser :=
  mkJSONParser (parserModel modelName).

(** The result object [res]: [data], the optional fields of the repair
    path, and [parserFixed] ([undefined], i.e. false, unless repaired). *)
Record ParseRes := mkParseRes {
  pdata : value;
  ptokensSent : option Z;
  ptokensReceived : option Z;
  pcost : option num;
  parserFixed : bool
}.

(** [Math.round(promptTokens * 1.10)] = floor(11 p / 10 + 1/2). *)
Definition round110 (promptTokens : Z) : Z := (11 * promptTokens + 5) / 10.

Definition parse {S} `{HasWorld S} (env : Env) (jp : JSONParser) (text : string)
    (promptTokens : Z) : M S ParseRes :=
  match directParse env text with
  | Some d => ret (mkParseRes d None None None false)
  | None =>
    res <- process (
      w <- getWorld ;;
      let k := count_repair (trace w) in
      logEvent (EvRepair text) ;;;
      match fixParse env k text with
      | inl e => throw e
      | inr data =>
        let tokensSent := round110 promptTokens in
        let tokensReceived := numTokens env (stringify env data) in
        let cost := calculateCost (jmodel jp) tokensSent tokensReceived in
        ret (mkParseRes data (Some tokensSent) (Some tokensReceived) (Some cost) false,
             [(tokensSent, [tokensReceived])])
      end) ;;
    ret (mkParseRes (pdata res) (ptokensSent res) (ptokensReceived res) (pcost res) true)
  end.

(** ** Prompt (llm.js) *)

(** A prompt: its model, the input variables of its templates, the own
    properties of [this] that [_.extend] copies into the prompt data, and
    [formatCount]: format the message templates against a data object that
    binds every input variable, join the texts with a newline and count
    tokens with the model's tokenizer. *)
Record Prompt := mkPrompt {
  pmodel : Model;
  inputVariables : list string;
  self : Data;
  formatCount : Data -> Z
}.

(** [this.parser = new JSONParser(this.schema, this.model.modelName)] *)
Definition promptParser (p : Prompt) : JSONParser := newJSONParser (modelName (pmodel p)).

(** [promptData(data, fillString)]: every input variable bound to
    [fillString], then [this], then [data]. *)
Definition promptData (p : Prompt) (data : Data) (fillString : string) : Data :=
  extend (extend (map (fun x => (x, VStr fillString)) (inputVariables p)) (self p)) data.

(** [countTokens(data, debug, fillString)] *)
Definition countTokensWith (p : Prompt) (data : Data) (fillString : string) : Z :=
  formatCount p (promptData p data fillString).

(** [countTokens(data)]: [fillString] is 'xxx'. *)
Definition countTokens (p : Prompt) (data : Data) : Z := countTokensWith p data "xxx".

Definition countRemainingTokens (p : Prompt) (data : Data) (fillString : string) : Z :=
  maxTokens (pmodel p) - countTokensWith p data fillString.

(** [chunksFromArray(arr, maxTokens, delimeter='\n')]. Its locals are
    [chunks], [curChunk] and [tokenCount]. [curChunk] starts [undefined] and
    is reset to ''; the code only tests its truthiness or overwrites it, so
    both are the empty string here. The elements are strings, counted with
    the model's tokenizer. *)
Definition nonEmpty (s : string) : bool := negb (String.eqb s EmptyString).

(** One iteration of the [for] loop. *)
Definition chunkStep (env : Env) (maxTokens delimeterTokens : Z) (delimeter : string)
    (st : list string * string * Z) (el : string) : list string * string * Z :=
  let '(chunks, curChunk, tokenCount) := st in
  if negb (nonEmpty el) then st                                  (* if (!el) continue; *)
  else
    let tokens := numTokens env el + (if nonEmpty curChunk then delimeterTokens else 0) in
    let '(chunks1, curChunk1, tokenCount1, tokens1) :=
      if negb (nonEmpty curChunk) || (maxTokens <? tokens + tokenCount) then
        ((if nonEmpty curChunk then (chunks ++ [curChunk])%list else chunks),
         EmptyString, 0, tokens - delimeterTokens)
      else (chunks, curChunk, tokenCount, tokens) in
    (chunks1,
     (if nonEmpty curChunk1 then curChunk1 ++ delimeter ++ el else el),
     tokenCount1 + tokens1).

Definition chunksFromArray (env : Env) (arr : list string) (maxTokens : Z) (delimeter : string)
    : list string :=
  let delimeterTokens := numTokens env delimeter in
  let '(chunks, curChunk, _) :=
    fold_left (chunkStep env maxTokens delimeterTokens delimeter) arr ([], EmptyString, 0) in
  if nonEmpty curChunk then (chunks ++ [curChunk])%list else chunks.

(** The result of [call]: [response] is [undefined] for a dry run. *)
Record CallResult := mkCallResult {
  response : value;
  tokensSent : Z;
  tokensReceived : value;
  cost : num
}.

(** The locals of [call] captured by the attempt closure: they live across
    attempts. *)
Record CallSt := mkCallSt {
  cworld : World;
  cTokensSent : Z;
  cTokensReceived : Z;
  cCost : num
}.

#[global] Instance CallSt_HasWorld : HasWorld CallSt := {
  world := cworld;
  set_world := fun w c => mkCallSt w (cTokensSent c) (cTokensReceived c) (cCost c)
}.

(** One attempt: the function passed to [this.model.rateLimiter.process]. *)
Definition attemptTask (env : Env) (p : Prompt) (pd : Data)
    : M CallSt (CallResult * list ReportCall) :=
  w <- getWorld ;;
  let k := count_complete (trace w) in
  logEvent (EvComplete pd) ;;;
  match complete env k pd with
  | inl e => throw e
  | inr rawText =>
    modify (fun c =>
      let ts := cTokensSent c + countTokens p pd in
      let tr := cTokensReceived c + numTokens env rawText in
      mkCallSt (cworld c) ts tr (num_add (cCost c) (calculateCost (pmodel p) ts tr))) ;;;
    c1 <- get ;;
    let report : ReportCall := (cTokensSent c1 + cTokensReceived c1, []) in
    parsed <- parse env (promptParser p) rawText (cTokensSent c1) ;;
    modify (fun c =>
      mkCallSt (cworld c)
        (cTokensSent c + match ptokensSent parsed with Some n => n | None => 0 end)
        (cTokensReceived c + match ptokensReceived parsed with Some n => n | None => 0 end)
        (num_add (cCost c) match pcost parsed with Some x => num_or0 x | None => Fin 0 end)) ;;;
    c2 <- get ;;
    ret (mkCallResult (pdata parsed) (cTokensSent c2) (VInt (cTokensReceived c2)) (cCost c2),
         [report])
  end.

Definition attempt (env : Env) (p : Prompt) (pd : Data) : M CallSt CallResult :=
  process (attemptTask env p pd).

(** [while (retries > 0) { try { return await attempt } catch (error) {
    retries--; if (retries === 0) throw error; await Delay(retryDelay); } }]
    and [undefined] when the loop exits. [fuel] is [Z.to_nat retries]. *)
Fixpoint retryLoop (fuel : nat) (env : Env) (p : Prompt) (pd : Data)
    (retries retryDelay : Z) : M CallSt (option CallResult) :=
  match fuel with
  | O => ret None
  | S fuel' =>
    if 0 <? retries then
      try_catch (r <- attempt env p pd ;; ret (Some r))
        (fun error =>
           let retries' := retries - 1 in
           if retries' =? 0 then throw error
           else logEvent (EvSleep retryDelay) ;;;
                retryLoop fuel' env p pd retries' retryDelay)
    else ret None
  end.

(** Run a computation on the locals of a fresh [call] frame. *)
Definition frame {A} (m : M CallSt A) : M World A :=
  fun w => match m (mkCallSt w 0 0 (Fin 0)) with
           | Susp => Susp
           | Err e c => Err e (cworld c)
           | Ok a c => Ok a (cworld c)
           end.

(** The chunk size [Math.floor((chunkSize || fallback) * 1.0)] that
    [setTextSplitter] and [setSplitter] compute, for a [chunkSize] that is
    [undefined] or a finite number: 0, NaN and [undefined] give the
    fallback, a finite number its floor. This model's chunk sizes are
    integers: any other [chunkSize] (a string, a boolean, an object or an
    infinity) is read as not given. *)
Definition chunkSizeOr (v : value) (fallback : Z) : Z :=
  match v with
  | VNum (Fin q) => if Qeq_bool q 0 then fallback else Qfloor q
  | _ => fallback
  end.

Definition budgetError : string := "tokenCount exceeds maxTokens".

(** [tokenCount = await this.countTokens(this.promptData(data))] *)
Definition measuredTokens (p : Prompt) (data : Data) : Z :=
  countTokens p (promptData p data "xxx").

(** [_.extend({}, this, {remainingTokenCount, tokenCount}, data)] *)
Definition callData (p : Prompt) (data : Data) (tokenCount remainingTokenCount : Z) : Data :=
  extend (extend (self p) [("remainingTokenCount", VInt remainingTokenCount);
                           ("tokenCount", VInt tokenCount)]) data.

(** [call(data, retries=5, retryDelay=1000)] *)
Definition call (env : Env) (p : Prompt) (data : Data) (retries retryDelay : Z)
    : M World (option CallResult) :=
  let tokenCount := measuredTokens p data in
  let remainingTokenCount := maxTokens (pmodel p) - tokenCount in
  if remainingTokenCount <? 0 then throw budgetError
  else
    let pd := callData p data tokenCount remainingTokenCount in
    if truthy (lookup "dryrun" data) then
      let ts := 0 + countTokens p pd in
      let tr := js_add env (VInt 0)
                  (value_or (lookup "responseTokenLength" pd) (VInt (maxTokens (pmodel p) - ts))) in
      let c := num_add (Fin 0) (calculateCostV env (pmodel p) ts tr) in
      ret (Some (mkCallResult VUndef ts tr c))
    else frame (retryLoop (Z.to_nat retries) env p pd retries retryDelay).

(** ** TextSplitter (llm.js) *)

(** [Math.round(a / b * 100)] on doubles: the division and the product are
    each rounded to a double. *)
Definition roundPercent (a b : Z) : float :=
  jsRound (float_of_Z a / float_of_Z b * float_of_Z 100)%float.

Record TextSplitter := mkTextSplitter {
  chunkSize : Z;
  chunkOverlap : Z
}.

(** [setSplitter({chunkSize, chunkOverlap=0, bufferPercentage=1.0})] *)
Definition newTextSplitter (chunkSize chunkOverlap : Z) (bufferPercentage : Q) : TextSplitter :=
  mkTextSplitter (Qfloor (inject_Z chunkSize * bufferPercentage)) chunkOverlap.

Record Excerpt := mkExcerpt {
  excerpt : string;
  excerptTokenLength : Z;
  excerptPercentageLength : float
}.

Definition excerptData (e : Excerpt) : Data :=
  [("excerpt", VStr (excerpt e)); ("excerptTokenLength", VInt (excerptTokenLength e));
   ("excerptPercentageLength", VNum (floatToNum (excerptPercentageLength e)))].

(** [splitText(text)]: returns [totalTextTokenLength] and the excerpts. *)
Definition splitText (env : Env) (sp : TextSplitter) (text : string) : Z * list Excerpt :=
  let totalTextTokenLength0 := numTokens env text in
  let chunks0 := filter (fun c => negb (String.eqb c EmptyString)) (tokenSplit env (chunkSize sp) (chunkOverlap sp) text) in
  let chunks := match chunks0 with [] => [text] | _ => chunks0 end in
  let totalTextTokenLength := totalTextTokenLength0 + chunkOverlap sp * Z.of_nat (length chunks) in
  (totalTextTokenLength,
   map (fun c => let n := numTokens env c in mkExcerpt c n (roundPercent n totalTextTokenLength)) chunks).

(** ** DocumentPrompt (llm.js) *)

Record DocumentPrompt := mkDocumentPrompt {
  dprompt : Prompt;
  responseTokenLength : Z;
  dself : Data;                 (* own properties other than prompt, schema, splitter *)
  dsplitter : option TextSplitter
}.

(** The [settings] argument: its data properties, and the [progress]
    callback (returning a value, or throwing). *)
Record Settings := mkSettings {
  sdata : Data;
  progress : option (Data -> string + value)
}.

(** [setTextSplitter({chunkSize, chunkOverlap=0, bufferPercentage=0.95})] *)
Definition setTextSplitter (dp : DocumentPrompt) (settings : Data) : TextSplitter :=
  let p := dprompt dp in
  let remainingTokens0 := countRemainingTokens p [] "999999" in
  let remainingTokens1 := remainingTokens0 - 2 * responseTokenLength dp in
  let bufferPercentage := match lookup "bufferPercentage" settings with
                          | VNum (Fin q) => q | _ => (95 # 100)%Q end in
  let remainingTokens := Qfloor (inject_Z remainingTokens1 * bufferPercentage) in
  let chunkSize := chunkSizeOr (lookup "chunkSize" settings) remainingTokens in
  let chunkOverlap := match lookup "chunkOverlap" settings with
                      | VNum (Fin q) => Qfloor q | _ => 0 end in
  newTextSplitter chunkSize chunkOverlap 1.

(** The locals of [DocumentPrompt.call]. *)
Record DocSt := mkDocSt {
  dworld : World;
  count : Z;
  dTokensSent : Z;
  dTokensReceived : value;
  dCost : num;
  dresponse : value;
  currentTokenCount : Z
}.

#[global] Instance DocSt_HasWorld : HasWorld DocSt := {
  world := dworld;
  set_world := fun w d => mkDocSt w (count d) (dTokensSent d) (dTokensReceived d)
                                  (dCost d) (dresponse d) (currentTokenCount d)
}.

Definition liftWorld {A} (m : M World A) : M DocSt A :=
  fun d => match m (dworld d) with
           | Susp => Susp
           | Err e w => Err e (set_world w d)
           | Ok a w => Ok a (set_world w d)
           end.

Definition isStop (v : value) : bool :=
  match v with VStr s => String.eqb s "stop" | _ => false end.

(** The [args] object built for one excerpt. *)
Definition stepArgs (env : Env) (dp : DocumentPrompt) (settings : Settings)
    (totalTextTokenLength : Z) (e : Excerpt) (st : DocSt) : Data :=
  let currentPercentageLength := roundPercent (currentTokenCount st) totalTextTokenLength in
  extend (extend (extend (dself dp) (sdata settings)) (excerptData e))
    [("totalTextTokenLength", VInt totalTextTokenLength);
     ("currentTokenCount", VInt (currentTokenCount st));
     ("currentPercentageLength", VNum (floatToNum currentPercentageLength));
     ("remainingPercentageLength",
        VNum (floatToNum (float_of_Z 100 - excerptPercentageLength e - currentPercentageLength)%float));
     ("response", if truthy (dresponse st) then VStr (stringify env (dresponse st)) else VUndef)].

(** Accumulating what [this.prompt.call(args)] returned. *)
Definition addResult (env : Env) (data : option CallResult) (d : DocSt) : DocSt :=
  match data with
  | Some r =>
    mkDocSt (dworld d) (count d) (dTokensSent d + tokensSent r)
      (js_add env (dTokensReceived d) (value_or (tokensReceived r) (VInt 0)))
      (num_add (dCost d) (num_or0 (cost r)))
      (value_or (response r) (dresponse d)) (currentTokenCount d)
  | None =>
    mkDocSt (dworld d) (count d) (dTokensSent d) (js_add env (dTokensReceived d) (VInt 0))
      (num_add (dCost d) (Fin 0)) (dresponse d) (currentTokenCount d)
  end.

(** The dry-run estimate for one excerpt. *)
Definition addEstimate (env : Env) (dp : DocumentPrompt) (tokenCount : Z) (d : DocSt) : DocSt :=
  let ts := dTokensSent d + (tokenCount + responseTokenLength dp) in
  let tr := js_add env (dTokensReceived d) (VInt (tokenCount + responseTokenLength dp)) in
  mkDocSt (dworld d) (count d) ts tr
    (num_add (dCost d) (calculateCostV env (pmodel (dprompt dp)) ts tr))
    (dresponse d) (currentTokenCount d).

(** [currentTokenCount += excerpt.excerptTokenLength; count++;] *)
Definition afterExcerpt (e : Excerpt) (d : DocSt) : DocSt :=
  mkDocSt (dworld d) (count d + 1) (dTokensSent d) (dTokensReceived d)
    (dCost d) (dresponse d) (currentTokenCount d + excerptTokenLength e).

(** The argument of the progress callback. *)
Definition progressArgs (args : Data) (d : DocSt) : Data :=
  extend args [("cost", VNum (dCost d)); ("tokensSent", VInt (dTokensSent d));
               ("tokensReceived", dTokensReceived d);
               ("response", dresponse d); ("count", VInt (count d))].

(** The body of the [for] loop for one excerpt up to the progress callback:
    returns the [args] object it built. *)
Definition processExcerpt (env : Env) (dp : DocumentPrompt) (settings : Settings)
    (totalTextTokenLength : Z) (e : Excerpt) : M DocSt Data :=
  st <- get ;;
  let args := stepArgs env dp settings totalTextTokenLength e st in
  (if truthy (lookup "dryrun" (sdata settings)) then
     modify (addEstimate env dp (countTokens (dprompt dp) args))
   else
     data <- liftWorld (call env (dprompt dp) args 5 1000) ;;
     modify (addResult env data)) ;;;
  modify (afterExcerpt e) ;;;
  ret args.

(** The whole body, inside its [try]; returns whether the loop [break]s. *)
Definition excerptStep (env : Env) (dp : DocumentPrompt) (settings : Settings)
    (totalTextTokenLength : Z) (e : Excerpt) : M DocSt bool :=
  args <- processExcerpt env dp settings totalTextTokenLength e ;;
  match progress settings with
  | None => ret false
  | Some f =>
    d <- get ;;
    match f (progressArgs args d) with
    | inl err => throw err
    | inr progressResponse => ret (isStop progressResponse)
    end
  end.

(** [for (const excerpt of excerpts) { try { ... } catch (e) { console.log(e); } }] *)
Fixpoint excerptLoop (env : Env) (dp : DocumentPrompt) (settings : Settings)
    (totalTextTokenLength : Z) (es : list Excerpt) : M DocSt unit :=
  match es with
  | [] => ret tt
  | e :: es' =>
    stop <- try_catch (excerptStep env dp settings totalTextTokenLength e)
                      (fun _ => ret false) ;;
    if stop then ret tt else excerptLoop env dp settings totalTextTokenLength es'
  end.

(** [if (!this.splitter) await this.setTextSplitter(settings);] *)
Definition splitterOf (dp : DocumentPrompt) (settings : Settings) : TextSplitter :=
  match dsplitter dp with
  | Some sp => sp
  | None => setTextSplitter dp (sdata settings)
  end.

(** [DocumentPrompt.call(text, settings)] up to its final locals. *)
Definition docRun (env : Env) (dp : DocumentPrompt) (settings : Settings) (text : string)
    : M World DocSt :=
  let '(totalTextTokenLength, excerpts) := splitText env (splitterOf dp settings) text in
  fun w => match excerptLoop env dp settings totalTextTokenLength excerpts
                   (mkDocSt w 0 0 (VInt 0) (Fin 0) VUndef 0) with
           | Susp => Susp
           | Err e d => Err e (dworld d)
           | Ok _ d => Ok d (dworld d)
           end.

Record DocResult := mkDocResult {
  docResponse : value;
  docCost : num;
  docTokensSent : Z;
  docTokensReceived : value
}.

(** [return { response, cost, tokensSent, tokensReceived }] *)
Definition docCall (env : Env) (dp : DocumentPrompt) (settings : Settings) (text : string)
    : M World DocResult :=
  d <- docRun env dp settings text ;;
  ret (mkDocResult (dresponse d) (dCost d) (dTokensSent d) (dTokensReceived d)).

(** The behaviour the retry loop is meant to have, attempt by attempt:
    [retrySpec n c o] says that, with [n] attempts allowed from state [c],
    the loop ends in [o]. *)
Definition addSleep (c : CallSt) (ms : Z) : CallSt :=
  set_world (mkWorld (limiter (cworld c)) (trace (cworld c) ++ [EvSleep ms])) c.

Inductive retrySpec (env : Env) (p : Prompt) (pd : Data) (retryDelay : Z)
    : nat -> CallSt -> Out CallSt (option CallResult) -> Prop :=
| rs_ok n c r c' :
    attempt env p pd c = Ok r c' -> retrySpec env p pd retryDelay (S n) c (Ok (Some r) c')
| rs_susp n c :
    attempt env p pd c = Susp -> retrySpec env p pd retryDelay (S n) c Susp
| rs_last c e c' :
    attempt env p pd c = Err e c' -> retrySpec env p pd retryDelay 1 c (Err e c')
| rs_retry n c e c' o :
    attempt env p pd c = Err e c' ->
    retrySpec env p pd retryDelay (S n) (addSleep c' retryDelay) o ->
    retrySpec env p pd retryDelay (S (S n)) c o.

Definition frameOut {A} (o : Out CallSt A) : Out World A :=
  match o with
  | Susp => Susp
  | Err e c => Err e (cworld c)
  | Ok a c => Ok a (cworld c)
  end.

(** ** Concrete instances used to evaluate the model *)

Module Demo.

(** A toy tokenizer: one token per space-separated word. *)
Fixpoint wordsFrom (s : string) (inWord : bool) : Z :=
  match s with
  | EmptyString => 0
  | String c s' =>
    if Ascii.eqb c " "%char then wordsFrom s' false
    else (if inWord then 0 else 1) + wordsFrom s' true
  end.

Definition words (s : string) : Z := wordsFrom s false.

(** Numbers are tokenized by groups of (at most) three digits, as the
    cl100k tokenizer of the GPT models does. *)
Definition digitGroups (n : Z) : Z :=
  let a := Z.abs n in
  if a <? 1000 then 1 else if a <? 1000000 then 2 else 3.

Definition valueTokens (v : value) : Z :=
  match v with
  | VStr s => words s
  | VNum (Fin q) => digitGroups (Qfloor q)
  | _ => 1
  end.

(** A message template: literal text and [{variable}] placeholders. *)
Inductive piece : Type :=
| Lit (s : string)
| Var (x : string).

Definition templateVars (t : list piece) : list string :=
  flat_map (fun pc => match pc with Var x => [x] | Lit _ => [] end) t.

Definition templateCount (t : list piece) (d : Data) : Z :=
  fold_right (fun pc acc => match pc with
                            | Lit s => words s
                            | Var x => valueTokens (lookup x d)
                            end + acc) 0 t.

Definition templatePrompt (m : Model) (t : list piece) : Prompt :=
  mkPrompt m (templateVars t) [] (templateCount t).


(** A model whose prices are 1 and 2 per token, to read costs easily. *)
Definition unitModel (maxTok : Z) : Model := mkModel "gpt-3.5-turbo" maxTok (Some 1%Q) (Some 2%Q).

Definition listPrompt (m : Model) : Prompt :=
  templatePrompt m [Lit "Return a list of"; Var "count"; Var "things"].

Definition listData : Data := [("count", VInt 5); ("things", VStr "ice cream flavors")].

Definition stringifyValue (v : value) : string :=
  match v with
  | VStr s => s
  | VObj j => j
  | _ => "null"
  end.

(** Decimal digits of a non-negative integer, prepended to [acc]. *)
Fixpoint digitsOf (fuel : nat) (n : Z) (acc : string) : string :=
  match fuel with
  | O => acc
  | S f =>
    let acc' := String (ascii_of_nat (48 + Z.to_nat (n mod 10))) acc in
    if n <? 10 then acc' else digitsOf f (n / 10) acc'
  end.

(** Number to string, for the integers the demos use. *)
Definition showNum (x : num) : string :=
  match x with
  | Fin q =>
    let n := Qfloor q in
    if n <? 0 then String "-" (digitsOf 64 (- n) EmptyString) else digitsOf 64 n EmptyString
  | Inf neg => if neg then "-Infinity" else "Infinity"
  | NaN => "NaN"
  end.

(** String to number, for decimal integers: the empty string is 0, any
    other non-digit text NaN. *)
Fixpoint readDigits (s : string) (acc : Z) : option Z :=
  match s with
  | EmptyString => Some acc
  | String c s' =>
    let d := Z.of_nat (nat_of_ascii c) - 48 in
    if (0 <=? d) && (d <=? 9) then readDigits s' (10 * acc + d) else None
  end.

Definition readNum (s : string) : num :=
  match readDigits s 0 with
  | Some n => Fin (inject_Z n)
  | None => NaN
  end.

(** A service scripted by attempt number. *)
Definition scriptedEnv (answers : nat -> string + string) (valid : string -> option value)
    (repairs : nat -> string -> string + value) (split : Z -> Z -> string -> list string) : Env :=
  mkEnv (fun k _ => answers k) valid repairs words stringifyValue split showNum (fun j => j) readNum.

Definition validJson (s : string) : option value :=
  if String.eqb s "[a, b, c]" then Some (VObj s) else None.

Definition world0 : World := mkWorld (newRateLimiter 3500 90000 defaultBufferPercentage) [].

(** The first completion is not JSON and its repair fails; the second is
    valid. *)
Definition failThenValid : Env :=
  scriptedEnv (fun k => match k with O => inr "oops" | _ => inr "[a, b, c]" end)
    validJson (fun _ _ => inl "repair failed") (fun _ _ t => [t]).

(** Every completion is not JSON and every repair succeeds. *)
Definition alwaysRepaired : Env :=
  scriptedEnv (fun _ => inr "oops") validJson (fun _ _ => inr (VObj "[a, b, c]"))
    (fun _ _ t => [t]).


Definition dryData : Data := [("dryrun", VBool true)].

(** Document prompts and settings. *)
Definition docPrompt : DocumentPrompt :=
  mkDocumentPrompt (listPrompt (unitModel 8192)) 10 [] (Some (mkTextSplitter 100 0)).

Definition twoParts (_ _ : Z) (_ : string) : list string := ["first part"; "second part"].

Definition noProgress : Settings := mkSettings [] None.

Definition stopAlways : Settings := mkSettings [] (Some (fun _ => inr (VStr "stop"))).

Definition speech : string := "first part second part".

(** Every completion is not JSON and every repair fails. *)
Definition failingEnv : Env :=
  scriptedEnv (fun _ => inr "oops") validJson (fun _ _ => inl "repair failed") (fun _ _ t => [t]).

(** The model answers a JSON empty string, a valid but falsy response. *)
Definition emptyAnswerEnv : Env :=
  scriptedEnv (fun _ => inr "EMPTY")
    (fun s => if String.eqb s "EMPTY" then Some (VStr EmptyString) else None)
    (fun _ _ => inl "repair failed") twoParts.

(** The first five completions are not JSON and cannot be repaired (all
    attempts of a first excerpt), the later ones are valid. *)
Definition failFiveThenValid : Env :=
  scriptedEnv (fun k => if (k <? 5)%nat then inr "oops" else inr "[a, b, c]")
    validJson (fun _ _ => inl "repair failed") twoParts.

Definition validTwoParts : Env :=
  scriptedEnv (fun _ => inr "[a, b, c]") validJson (fun _ _ => inl "repair failed") twoParts.

(** [n] words "w" separated by spaces. *)
Fixpoint wordsText (n : nat) : string :=
  match n with
  | O => EmptyString
  | S O => "w"
  | S n' => String "w" (String " " (wordsText n'))
  end.

Definition words57 : string := wordsText 57.
Definition words143 : string := wordsText 143.
Definition text200 : string := wordsText 200.

(** A splitter that cuts the 200-word text after its 57th word. *)
Definition split57 (_ _ : Z) (_ : string) : list string := [words57; words143].

Definition split57Env : Env :=
  scriptedEnv (fun _ => inr "[a, b, c]") validJson (fun _ _ => inl "repair failed") split57.


End Demo.

(** The world after the admission of a job: one unit taken from each
    reservoir. *)
Definition admitted (w : World) (rq tk : Reservoir) : World :=
  mkWorld (mkRateLimiter rq tk) (trace w).

(** The world after the post-task debit of [n] tokens. *)
Definition debited (w : World) (n : Z) : World :=
  mkWorld (mkRateLimiter (requestLimiter (limiter w))
             (incrementReservoir (tokenLimiter (limiter w)) (- n))) (trace w).

(** Request units plus completions and repairs requested so far. *)
Definition reqAccount (w : World) : Z :=
  available (requestLimiter (limiter w))
  + Z.of_nat (count_complete (trace w) + count_repair (trace w)).

Definition refreshAmounts (w : World) : Z * Z :=
  (refreshAmount (requestLimiter (limiter w)), refreshAmount (tokenLimiter (limiter w))).

(** How an event moves [reqAccount]: one for a completion or a repair. *)
Definition evWeight (ev : event) : Z :=
  match ev with EvComplete _ | EvRepair _ => 1 | EvSleep _ => 0 end.

(** A computation that, on each outcome, moves [reqAccount] by [n] and
    keeps the refresh amounts. *)
Definition Shifts {S} `{HasWorld S} {A} (n : Z) (m : M S A) : Prop :=
  forall s, match m s with
            | Susp => True
            | Err _ s' | Ok _ s' =>
              reqAccount (world s') = reqAccount (world s) + n
              /\ refreshAmounts (world s') = refreshAmounts (world s)
            end.

(** The groups of elements a chunk list is made of, and their token count
    as [chunksFromArray] adds it up: the elements' counts plus one
    delimiter per joint. *)
Definition groupTokens (env : Env) (delimeterTokens : Z) (g : list string) : Z :=
  fold_right Z.add 0 (map (numTokens env) g) + delimeterTokens * (Z.of_nat (length g) - 1).

Definition groupFits (env : Env) (delimeterTokens bound : Z) (g : list string) : Prop :=
  (2 <= length g)%nat -> groupTokens env delimeterTokens g <= bound.

Definition groupsFit (env : Env) (maxTokens delimeterTokens : Z) (gs : list (list string)) : Prop :=
  match gs with
  | [] => True
  | g0 :: rest => groupFits env delimeterTokens (maxTokens + delimeterTokens) g0
                  /\ Forall (groupFits env delimeterTokens maxTokens) rest
  end.

(** Greedy packing: each group but the last was closed because its count
    as [chunksFromArray] keeps it ([groupTokens] less [off] for the first
    group), plus the next element with its delimiter, exceeds [maxTokens]. *)
Fixpoint greedyFrom (env : Env) (maxTokens delimeterTokens off : Z)
    (gs : list (list string)) : Prop :=
  match gs with
  | [] => True
  | g1 :: rest =>
    match rest with
    | (x :: _) :: _ =>
      maxTokens < groupTokens env delimeterTokens g1 - off + numTokens env x + delimeterTokens
    | _ => True
    end
    /\ greedyFrom env maxTokens delimeterTokens 0 rest
  end.

(** The loop invariant of [chunksFromArray]: the state after the elements
    [processed] is made of the closed groups [gs] and the open group [g]. *)
Definition chunkInv (env : Env) (maxTokens delimeterTokens : Z) (delimeter : string)
    (st : list string * string * Z) (gs : list (list string)) (g : list string)
    (processed : list string) : Prop :=
  let '(chunks, curChunk, tokenCount) := st in
  chunks = map (String.concat delimeter) gs
  /\ curChunk = String.concat delimeter g
  /\ (g = [] -> gs = [])
  /\ (g <> [] -> tokenCount = groupTokens env delimeterTokens g
                               - match gs with [] => delimeterTokens | _ => 0 end)
  /\ List.concat (gs ++ [g]) = filter nonEmpty processed
  /\ Forall (fun g => g <> []) gs
  /\ groupsFit env maxTokens delimeterTokens (gs ++ [g])
  /\ greedyFrom env maxTokens delimeterTokens delimeterTokens (gs ++ [g]).

Ltac unfold_m :=
  unfold attempt, process, attemptTask, parse, bind, getWorld, get, ret, setLimiter,
    putWorld, modify, logEvent, throw, suspend in *; cbn in *.

Ltac split_m :=
  repeat (unfold_m;
          match goal with
          | |- context [match ?x with Some _ => _ | None => _ end] => destruct x
          | |- context [match ?x with inl _ => _ | inr _ => _ end] => destruct x
          end).

(** * Properties *)

(** ** Unfolding lemmas for the monad *)

Lemma bind_ok {S A B} (m : M S A) (f : A -> M S B) s a s' :
  m s = Ok a s' -> bind m f s = f a s'.
Proof. unfold bind. intros ->. reflexivity. Qed.

Lemma bind_err {S A B} (m : M S A) (f : A -> M S B) s e s' :
  m s = Err e s' -> bind m f s = Err e s'.
Proof. unfold bind. intros ->. reflexivity. Qed.

Lemma bind_susp {S A B} (m : M S A) (f : A -> M S B) s :
  m s = Susp -> bind m f s = Susp.
Proof. unfold bind. intros ->. reflexivity. Qed.

Lemma schedule_some r : 1 <= available r ->
  schedule r = Some (mkReservoir (available r - 1) (refreshAmount r)).
Proof. intros H. unfold schedule. apply Z.leb_le in H. now rewrite H. Qed.

Lemma schedule_none r : available r < 1 -> schedule r = None.
Proof. intros H. unfold schedule. destruct (Z.leb_spec 1 (available r)); [lia | reflexivity]. Qed.

Lemma tokensUsed_single n rest : tokensUsedAfter [(n, rest)] = n.
Proof. reflexivity. Qed.

(** ** C9: admission waits on both reservoirs, runs the task, then debits
    the reported consumption *)

(** C9. [process(task)] suspends (it does not fail) while the request or the
    token reservoir holds less than 1; when both hold at least 1 it takes one
    unit from each, runs the task, and only once the task has returned it
    debits the token reservoir by exactly the count the task last reported
    (any amount, so possibly more than the unit reserved); a task that throws
    has its error passed on with no debit. *)
Theorem process_waits_runs_then_debits {A} (task : M World (A * list ReportCall)) (w : World) :
  ((available (requestLimiter (limiter w)) < 1 \/ available (tokenLimiter (limiter w)) < 1) ->
     process task w = Susp)
  /\
  (1 <= available (requestLimiter (limiter w)) -> 1 <= available (tokenLimiter (limiter w)) ->
     let rq := requestLimiter (limiter w) in
     let tk := tokenLimiter (limiter w) in
     let w1 := admitted w (mkReservoir (available rq - 1) (refreshAmount rq))
                          (mkReservoir (available tk - 1) (refreshAmount tk)) in
     process task w =
       match task w1 with
       | Susp => Susp
       | Err e w' => Err e w'
       | Ok (a, calls) w' => Ok a (debited w' (tokensUsedAfter calls))
       end).
Proof.
  split.
  - intros [H | H]; unfold process, bind, getWorld, get, ret; cbn.
    + now rewrite (schedule_none _ H).
    + destruct (schedule (requestLimiter (limiter w))); [|reflexivity].
      now rewrite (schedule_none _ H).
  - intros H1 H2. cbn zeta.
    unfold process, bind, getWorld, get, ret; cbn.
    rewrite (schedule_some _ H1), (schedule_some _ H2).
    unfold setLimiter, bind, getWorld, get, putWorld, modify, ret; cbn.
    destruct (task _) as [| e w' | [a calls] w']; reflexivity.
Qed.

(** ** C10: the repair debits only its estimated sent-side tokens *)

(** C10. On the repair path of [JSONParser.parse] (the direct parse fails
    and the call returns), the shared token reservoir ends exactly
    [1 + round(promptTokens * 1.10)] lower: the unit reserved at admission
    plus the post-task debit [round(promptTokens * 1.10)], the first argument
    of [reportTokens(tokensSent, tokensReceived)]. The count of tokens
    received from the repair (passed as the second argument) is never
    debited, and the request reservoir loses just its admission unit. *)
Theorem parse_repair_debits_sent_only (env : Env) (jp : JSONParser) (text : string)
    (promptTokens : Z) (w w' : World) (res : ParseRes) :
  directParse env text = None ->
  parse env jp text promptTokens w = Ok res w' ->
  available (tokenLimiter (limiter w')) =
    available (tokenLimiter (limiter w)) - 1 - round110 promptTokens
  /\ available (requestLimiter (limiter w')) = available (requestLimiter (limiter w)) - 1
  /\ ptokensReceived res = Some (numTokens env (stringify env (pdata res))).
Proof.
  intros Hd Hp. unfold parse in Hp. rewrite Hd in Hp.
  unfold process, bind, getWorld, get, ret in Hp; cbn in Hp.
  destruct (schedule (requestLimiter (limiter w))) as [rq|] eqn:Hrq; [|discriminate].
  destruct (schedule (tokenLimiter (limiter w))) as [tk|] eqn:Htk; [|discriminate].
  unfold schedule in Hrq, Htk.
  destruct (1 <=? available (requestLimiter (limiter w))); [|discriminate].
  destruct (1 <=? available (tokenLimiter (limiter w))); [|discriminate].
  injection Hrq as <-. injection Htk as <-.
  unfold logEvent, setLimiter, bind, getWorld, get, putWorld, modify, ret, throw in Hp; cbn in Hp.
  destruct (fixParse env _ text) as [e | d]; [discriminate|].
  cbn in Hp. injection Hp as <- <-. cbn. repeat split; lia.
Qed.

(** ** C2: an over-budget prompt fails before any attempt *)

(** C2. When the measured prompt token count exceeds [maxTokens]
    ([maxTokens - tokenCount < 0]), [call] throws
    'tokenCount exceeds maxTokens' with the world untouched: no completion
    requested, no attempt admitted, no sleep. *)
Theorem call_budget_exceeded (env : Env) (p : Prompt) (data : Data)
    (retries retryDelay : Z) (w : World) :
  maxTokens (pmodel p) - measuredTokens p data < 0 ->
  call env p data retries retryDelay w = Err budgetError w.
Proof.
  intros H. unfold call. cbv zeta.
  destruct (Z.ltb_spec (maxTokens (pmodel p) - measuredTokens p data) 0);
    [reflexivity | lia].
Qed.

Lemma call_budget_exceeded_witness :
  maxTokens (pmodel (Demo.listPrompt (Demo.unitModel 5)))
    - measuredTokens (Demo.listPrompt (Demo.unitModel 5)) Demo.listData < 0
  /\ call (Demo.scriptedEnv (fun _ => inr "[a, b, c]") Demo.validJson (fun _ _ => inl "no repair")
             (fun _ _ t => [t]))
          (Demo.listPrompt (Demo.unitModel 5)) Demo.listData 5 1000 Demo.world0
     = Err budgetError Demo.world0.
Proof.
  split.
  - vm_compute. reflexivity.
  - apply call_budget_exceeded. vm_compute. reflexivity.
Defined.

(** ** C3: the retry loop *)

Lemma count_complete_app t1 t2 :
  count_complete (t1 ++ t2) = (count_complete t1 + count_complete t2)%nat.
Proof. induction t1 as [|[] t1 IH]; cbn; auto. Qed.

Lemma count_repair_app t1 t2 :
  count_repair (t1 ++ t2) = (count_repair t1 + count_repair t2)%nat.
Proof. induction t1 as [|[] t1 IH]; cbn; auto. Qed.

Lemma retryLoop_follows_spec env p pd retryDelay n c :
  retrySpec env p pd retryDelay (S n) c
    (retryLoop (S n) env p pd (Z.of_nat (S n)) retryDelay c).
Proof.
  revert c. induction n as [|n IH]; intros c.
  - cbn [retryLoop]. replace (0 <? Z.of_nat 1) with true by reflexivity.
    unfold try_catch, bind, ret.
    destruct (attempt env p pd c) as [| e c' | r c'] eqn:Ha.
    + now constructor.
    + cbn. now apply rs_last.
    + now constructor.
  - cbn [retryLoop].
    replace (0 <? Z.of_nat (S (S n))) with true by (symmetry; apply Z.ltb_lt; lia).
    unfold try_catch, bind, ret.
    destruct (attempt env p pd c) as [| e c' | r c'] eqn:Ha.
    + now constructor.
    + replace (Z.of_nat (S (S n)) - 1 =? 0) with false by (symmetry; apply Z.eqb_neq; lia).
      replace (Z.of_nat (S (S n)) - 1) with (Z.of_nat (S n)) by lia.
      apply rs_retry with e c'; [assumption|].
      exact (IH (addSleep c' retryDelay)).
    + now constructor.
Qed.

(** Every attempt that does not suspend requests exactly one completion. *)
Lemma attempt_requests_once env p pd c :
  match attempt env p pd c with
  | Susp => True
  | Err _ c' | Ok _ c' => count_complete (trace (cworld c')) = S (count_complete (trace (cworld c)))
  end.
Proof.
  split_m; unfold_m; trivial; rewrite ?count_complete_app; cbn; rewrite ?count_complete_app; cbn; lia.
Qed.

Lemma retrySpec_counts env p pd retryDelay n c o :
  retrySpec env p pd retryDelay n c o ->
  match o with
  | Susp => True
  | Ok _ c' => (count_complete (trace (cworld c')) <= count_complete (trace (cworld c)) + n)%nat
  | Err _ c' => count_complete (trace (cworld c')) = (count_complete (trace (cworld c)) + n)%nat
  end.
Proof.
  induction 1 as [n c r c' Ha | n c Ha | c e c' Ha | n c e c' o Ha Hs IH].
  - pose proof (attempt_requests_once env p pd c) as H. rewrite Ha in H. lia.
  - exact I.
  - pose proof (attempt_requests_once env p pd c) as H. rewrite Ha in H. lia.
  - pose proof (attempt_requests_once env p pd c) as H. rewrite Ha in H.
    unfold addSleep in IH. cbn in IH. rewrite count_complete_app in IH. cbn in IH.
    destruct o as [| e' c'' | a c'']; [exact I | lia | lia].
Qed.

(** C3. For a non-dry-run call within budget and [retries = m + 1 >= 1]:
    [call] runs its retry loop from fresh counters, the loop follows
    [retrySpec] (each failed attempt but the last is followed by a
    [Delay(retryDelay)] and a new attempt; the last failure's error is
    thrown; a success is returned at once), and it requests at most
    [retries] completions — exactly [retries] when it throws. *)
Theorem call_retry_loop (env : Env) (p : Prompt) (data : Data) (m : nat)
    (retryDelay : Z) (w : World) :
  0 <= maxTokens (pmodel p) - measuredTokens p data ->
  truthy (lookup "dryrun" data) = false ->
  let pd := callData p data (measuredTokens p data) (maxTokens (pmodel p) - measuredTokens p data) in
  let c0 := mkCallSt w 0 0 (Fin 0) in
  let o := retryLoop (S m) env p pd (Z.of_nat (S m)) retryDelay c0 in
  call env p data (Z.of_nat (S m)) retryDelay w = frameOut o
  /\ retrySpec env p pd retryDelay (S m) c0 o
  /\ match o with
     | Susp => True
     | Ok _ c' => (count_complete (trace (cworld c')) <= count_complete (trace w) + S m)%nat
     | Err _ c' => count_complete (trace (cworld c')) = (count_complete (trace w) + S m)%nat
     end.
Proof.
  intros Hb Hd pd c0 o.
  assert (Hs : retrySpec env p pd retryDelay (S m) c0 o) by apply retryLoop_follows_spec.
  split; [|split; [exact Hs | exact (retrySpec_counts _ _ _ _ _ _ _ Hs)]].
  unfold call. cbv zeta.
  destruct (Z.ltb_spec (maxTokens (pmodel p) - measuredTokens p data) 0); [lia|].
  rewrite Hd. unfold frame. rewrite Nat2Z.id. reflexivity.
Qed.

Lemma call_retry_loop_witness :
  0 <= maxTokens (pmodel (Demo.listPrompt (Demo.unitModel 8192)))
       - measuredTokens (Demo.listPrompt (Demo.unitModel 8192)) Demo.listData
  /\ truthy (lookup "dryrun" Demo.listData) = false
  /\ (let p := Demo.listPrompt (Demo.unitModel 8192) in
      let data := Demo.listData in
      let pd := callData p data (measuredTokens p data) (maxTokens (pmodel p) - measuredTokens p data) in
      let c0 := mkCallSt Demo.world0 0 0 (Fin 0) in
      let o := retryLoop 2 Demo.failThenValid p pd (Z.of_nat 2) 1000 c0 in
      call Demo.failThenValid p data (Z.of_nat 2) 1000 Demo.world0 = frameOut o
      /\ retrySpec Demo.failThenValid p pd 1000 2 c0 o
      /\ match o with
         | Susp => True
         | Ok _ c' => (count_complete (trace (cworld c')) <= count_complete (trace Demo.world0) + 2)%nat
         | Err _ c' => count_complete (trace (cworld c')) = (count_complete (trace Demo.world0) + 2)%nat
         end).
Proof.
  split; [vm_compute; discriminate|].
  split; [reflexivity|].
  apply (call_retry_loop Demo.failThenValid _ _ 1 1000 Demo.world0).
  - vm_compute. discriminate.
  - reflexivity.
Defined.

Lemma parse_repair_debits_sent_only_witness :
  directParse Demo.alwaysRepaired "oops" = None
  /\ exists res w',
       parse Demo.alwaysRepaired (newJSONParser "gpt-4") "oops" 8 Demo.world0 = Ok res w'
       /\ available (tokenLimiter (limiter w')) =
            available (tokenLimiter (limiter Demo.world0)) - 1 - round110 8
       /\ available (requestLimiter (limiter w')) =
            available (requestLimiter (limiter Demo.world0)) - 1
       /\ ptokensReceived res =
            Some (numTokens Demo.alwaysRepaired (stringify Demo.alwaysRepaired (pdata res))).
Proof.
  split; [reflexivity|].
  eexists. eexists.
  assert (Hp : parse Demo.alwaysRepaired (newJSONParser "gpt-4") "oops" 8 Demo.world0
               = Ok (mkParseRes (VObj "[a, b, c]") (Some 9) (Some 3) (Some NaN) true)
                    (mkWorld (mkRateLimiter (mkReservoir 2799 2800) (mkReservoir (71999 - 9) 72000))
                             [EvRepair "oops"])) by (vm_compute; reflexivity).
  split; [exact Hp|].
  apply (parse_repair_debits_sent_only Demo.alwaysRepaired (newJSONParser "gpt-4") "oops" 8
           Demo.world0 _ _ eq_refl Hp).
Defined.

(** ** C1: the cost of a call against the price formula *)

(** C1 (defect). The returned [cost] is not [tokensSent * txPrice +
    tokensReceived * rxPrice] when the call needed a retry (each attempt adds
    [calculateCost] of the running totals, so earlier attempts are charged
    again) or took the repair path (the repair's cost is NaN, since the
    parser's model has no prices, and [NaN || 0] adds nothing while its
    tokens are added). Prices are 1 and 2 per token. *)
Theorem call_cost_formula_fails :
  (exists r w,
     call Demo.failThenValid (Demo.listPrompt (Demo.unitModel 8192)) Demo.listData 2 1000 Demo.world0
       = Ok (Some r) w
     /\ tokensSent r = 16 /\ tokensReceived r = VInt 4
     /\ cost r = Fin 34
     /\ calculateCostV Demo.failThenValid (Demo.unitModel 8192) (tokensSent r) (tokensReceived r)
        = Fin 24)
  /\
  (exists r w,
     call Demo.alwaysRepaired (Demo.listPrompt (Demo.unitModel 8192)) Demo.listData 5 1000 Demo.world0
       = Ok (Some r) w
     /\ tokensSent r = 17 /\ tokensReceived r = VInt 4
     /\ cost r = Fin 10
     /\ calculateCostV Demo.alwaysRepaired (Demo.unitModel 8192) (tokensSent r) (tokensReceived r)
        = Fin 25).
Proof.
  split; eexists; eexists; (split; [vm_compute; reflexivity|]); vm_compute; repeat split.
Qed.

(** ** C4: direct parse, or repair *)

(** A raw text the schema parser accepts is returned as is, not repaired,
    with no token or cost fields and no repair requested (the world is
    untouched). Otherwise, a returning parse went through one repair: it is
    marked repaired, [tokensSent = round(promptTokens * 1.10)] (at least 1
    when [promptTokens >= 1]), [tokensReceived] is the token count of the
    serialized repaired value, and the cost field is the parser model's
    [calculateCost] of those two counts. *)
Lemma parse_direct_or_repaired (env : Env) (jp : JSONParser) (text : string)
    (promptTokens : Z) (w : World) :
  (forall d, directParse env text = Some d ->
     parse env jp text promptTokens w = Ok (mkParseRes d None None None false) w)
  /\
  (directParse env text = None -> forall res w',
     parse env jp text promptTokens w = Ok res w' ->
     parserFixed res = true
     /\ ptokensSent res = Some (round110 promptTokens)
     /\ ptokensReceived res = Some (numTokens env (stringify env (pdata res)))
     /\ pcost res = Some (calculateCost (jmodel jp) (round110 promptTokens)
                                          (numTokens env (stringify env (pdata res))))
     /\ (1 <= promptTokens -> 1 <= round110 promptTokens)
     /\ count_repair (trace w') = S (count_repair (trace w))).
Proof.
  split.
  - intros d Hd. unfold parse. now rewrite Hd.
  - intros Hd res w' Hp. unfold parse in Hp. rewrite Hd in Hp.
    unfold process, bind, getWorld, get, ret in Hp; cbn in Hp.
    destruct (schedule (requestLimiter (limiter w))) as [rq|]; [|discriminate].
    destruct (schedule (tokenLimiter (limiter w))) as [tk|]; [|discriminate].
    unfold logEvent, setLimiter, bind, getWorld, get, putWorld, modify, ret, throw in Hp; cbn in Hp.
    destruct (fixParse env _ text) as [e | d]; [discriminate|].
    cbn in Hp. injection Hp as <- <-. cbn.
    rewrite !count_repair_app. cbn.
    repeat split; try reflexivity; try lia.
    intros H. unfold round110. apply Z.div_le_lower_bound; lia.
Qed.

(** C4 (defect). A repaired parse never reports a positive cost: the
    parser's model is built by [new JSONParser(schema, modelName)] without
    prices, so its [calculateCost] is NaN, whatever the model name, the text
    and the prompt size. For instance a completion "oops" that the schema
    parser rejects and the repair turns into [a, b, c], with
    [promptTokens = 8], reports [tokensSent = 9] and [tokensReceived = 3]
    but a NaN cost. *)
Theorem parse_repair_cost_nan :
  (forall (env : Env) (modelName text : string) (promptTokens : Z) (w : World) res w',
     directParse env text = None ->
     parse env (newJSONParser modelName) text promptTokens w = Ok res w' ->
     parserFixed res = true /\ pcost res = Some NaN)
  /\ (exists res w,
        parse Demo.alwaysRepaired (newJSONParser "gpt-4") "oops" 8 Demo.world0 = Ok res w
        /\ directParse Demo.alwaysRepaired "oops" = None
        /\ parserFixed res = true /\ ptokensSent res = Some 9 /\ ptokensReceived res = Some 3
        /\ pcost res = Some NaN).
Proof.
  split.
  - intros env modelName text promptTokens w res w' Hd Hp.
    destruct (proj2 (parse_direct_or_repaired env (newJSONParser modelName) text promptTokens w)
                Hd res w' Hp) as (Hf & _ & _ & Hc & _).
    split; [exact Hf|]. rewrite Hc. reflexivity.
  - eexists; eexists; (split; [vm_compute; reflexivity|]). repeat split; reflexivity.
Qed.

(** ** C5: dry runs *)




(** ** C8: totals and percentages of the text splitter *)

(** C8 (defect). The percentage is [Math.round(excerptTokenLength /
    totalTextTokenLength * 100)] on doubles, where the quotient is rounded
    before the product: for a 200-token text split into excerpts of 57 and
    143 tokens (no overlap), the total is 200 as stated, but 57 / 200 is the
    double just below 0.285, the product is below 28.5 and the first excerpt
    gets 28, while round(57 / 200 * 100) = round(28.5) = 29. *)
Theorem splitText_percentage_rounding :
  splitText Demo.split57Env (mkTextSplitter 100 0) Demo.text200
    = (200, [mkExcerpt Demo.words57 57 28%float; mkExcerpt Demo.words143 143 72%float])
  /\ PrimFloat.ltb (float_of_Z 57 / float_of_Z 200 * float_of_Z 100)%float 28.5%float = true
  /\ Qfloor (inject_Z 57 / inject_Z 200 * inject_Z 100 + (1 # 2)) = 29.
Proof.
  split; [vm_compute; reflexivity|].
  split; vm_compute; reflexivity.
Qed.

(** ** DocumentPrompt loop: unfolding lemmas *)

Lemma excerptLoop_cons env dp settings total e es d :
  excerptLoop env dp settings total (e :: es) d =
  match processExcerpt env dp settings total e d with
  | Susp => Susp
  | Err _ d' => excerptLoop env dp settings total es d'
  | Ok args d1 =>
    match progress settings with
    | None => excerptLoop env dp settings total es d1
    | Some f =>
      match f (progressArgs args d1) with
      | inl _ => excerptLoop env dp settings total es d1
      | inr v => if isStop v then Ok tt d1 else excerptLoop env dp settings total es d1
      end
    end
  end.
Proof.
  cbn [excerptLoop]. unfold try_catch, excerptStep, bind.
  destruct (processExcerpt env dp settings total e d) as [| err d' | args d1]; [reflexivity..|].
  destruct (progress settings) as [f|]; [|reflexivity].
  unfold get, ret, throw. destruct (f (progressArgs args d1)); [reflexivity|].
  destruct (isStop _); reflexivity.
Qed.

Lemma processExcerpt_call env dp settings total e d :
  truthy (lookup "dryrun" (sdata settings)) = false ->
  processExcerpt env dp settings total e d =
  match call env (dprompt dp) (stepArgs env dp settings total e d) 5 1000 (dworld d) with
  | Susp => Susp
  | Err err w' => Err err (set_world w' d)
  | Ok data w' => Ok (stepArgs env dp settings total e d)
                     (afterExcerpt e (addResult env data (set_world w' d)))
  end.
Proof.
  intros Hd. unfold processExcerpt, bind, get, modify, ret, liftWorld. rewrite Hd.
  destruct (call _ _ _ _ _ _); reflexivity.
Qed.

(** ** C6: a failing excerpt is skipped *)

(** C6 (as stated, fails). One excerpt whose call fails on all five
    attempts: five completions were requested for it, yet the document
    totals count none of its tokens — an excerpt whose call throws adds
    nothing to the totals. *)
Lemma excerpt_failure_counterexample :
  exists res w,
    docCall Demo.failingEnv Demo.docPrompt Demo.noProgress Demo.speech Demo.world0 = Ok res w
    /\ count_complete (trace w) = 5%nat
    /\ docTokensSent res = 0 /\ docTokensReceived res = VInt 0 /\ docResponse res = VUndef.
Proof.
  eexists; eexists; (split; [vm_compute; reflexivity|]). vm_compute. repeat split.
Qed.

(** C6 (amended). Outside dry-run mode, an excerpt whose call throws is
    skipped: the loop goes on with the next excerpt from the same totals,
    response and count (only the world, i.e. the limiter and the trace,
    moved on). An excerpt whose call returns adds the returned
    [tokensSent], [tokensReceived || 0] and [cost || 0] to the totals, keeps
    the response unless the returned one is falsy, and counts one excerpt;
    the loop then goes on, also when the progress callback throws. *)
Theorem excerpt_failure_skipped (env : Env) (dp : DocumentPrompt) (settings : Settings)
    (total : Z) (e : Excerpt) (es : list Excerpt) (d : DocSt) :
  truthy (lookup "dryrun" (sdata settings)) = false ->
  let args := stepArgs env dp settings total e d in
  (forall err w', call env (dprompt dp) args 5 1000 (dworld d) = Err err w' ->
     excerptLoop env dp settings total (e :: es) d
       = excerptLoop env dp settings total es (set_world w' d))
  /\
  (forall r w', call env (dprompt dp) args 5 1000 (dworld d) = Ok (Some r) w' ->
     exists d1,
       processExcerpt env dp settings total e d = Ok args d1
       /\ dTokensSent d1 = dTokensSent d + tokensSent r
       /\ dTokensReceived d1 = js_add env (dTokensReceived d) (value_or (tokensReceived r) (VInt 0))
       /\ dCost d1 = num_add (dCost d) (num_or0 (cost r))
       /\ dresponse d1 = value_or (response r) (dresponse d)
       /\ count d1 = count d + 1
       /\ (progress settings = None ->
           excerptLoop env dp settings total (e :: es) d = excerptLoop env dp settings total es d1)
       /\ (forall f err, progress settings = Some f -> f (progressArgs args d1) = inl err ->
           excerptLoop env dp settings total (e :: es) d = excerptLoop env dp settings total es d1)).
Proof.
  intros Hd args. split.
  - intros err w' Hc. rewrite excerptLoop_cons, (processExcerpt_call _ _ _ _ _ _ Hd).
    fold args. now rewrite Hc.
  - intros r w' Hc.
    exists (afterExcerpt e (addResult env (Some r) (set_world w' d))).
    assert (Hp : processExcerpt env dp settings total e d
                 = Ok args (afterExcerpt e (addResult env (Some r) (set_world w' d)))).
    { rewrite (processExcerpt_call _ _ _ _ _ _ Hd). fold args. now rewrite Hc. }
    split; [exact Hp|].
    repeat split; try reflexivity.
    + intros Hn. rewrite excerptLoop_cons, Hp, Hn. reflexivity.
    + intros f err Hf Hfe. rewrite excerptLoop_cons, Hp, Hf, Hfe. reflexivity.
Qed.

Lemma excerpt_failure_skipped_witness :
  truthy (lookup "dryrun" (sdata Demo.noProgress)) = false
  /\ (let d := mkDocSt Demo.world0 0 0 (VInt 0) (Fin 0) VUndef 0 in
      let e := mkExcerpt "oops" 1 100%float in
      let args := stepArgs Demo.failingEnv Demo.docPrompt Demo.noProgress 1 e d in
      (forall err w', call Demo.failingEnv (dprompt Demo.docPrompt) args 5 1000 (dworld d) = Err err w' ->
         excerptLoop Demo.failingEnv Demo.docPrompt Demo.noProgress 1 [e] d
           = excerptLoop Demo.failingEnv Demo.docPrompt Demo.noProgress 1 [] (set_world w' d))
      /\
      (forall r w', call Demo.failingEnv (dprompt Demo.docPrompt) args 5 1000 (dworld d) = Ok (Some r) w' ->
         exists d1,
           processExcerpt Demo.failingEnv Demo.docPrompt Demo.noProgress 1 e d = Ok args d1
           /\ dTokensSent d1 = dTokensSent d + tokensSent r
           /\ dTokensReceived d1
              = js_add Demo.failingEnv (dTokensReceived d) (value_or (tokensReceived r) (VInt 0))
           /\ dCost d1 = num_add (dCost d) (num_or0 (cost r))
           /\ dresponse d1 = value_or (response r) (dresponse d)
           /\ count d1 = count d + 1
           /\ (progress Demo.noProgress = None ->
               excerptLoop Demo.failingEnv Demo.docPrompt Demo.noProgress 1 [e] d
                 = excerptLoop Demo.failingEnv Demo.docPrompt Demo.noProgress 1 [] d1)
           /\ (forall f err, progress Demo.noProgress = Some f -> f (progressArgs args d1) = inl err ->
               excerptLoop Demo.failingEnv Demo.docPrompt Demo.noProgress 1 [e] d
                 = excerptLoop Demo.failingEnv Demo.docPrompt Demo.noProgress 1 [] d1))).
Proof.
  split; [reflexivity|].
  apply excerpt_failure_skipped. reflexivity.
Defined.

(** ** C7: the progress callback and its "stop" *)

(** C7 (as stated, fails). (a) Two excerpts, the callback answers "stop":
    the run stops with [count = 1], but the first excerpt's result is the
    (valid, falsy) empty string and the returned response stays
    [undefined] ([data.response || response]). (b) The callback always
    answers "stop", the first excerpt's call fails: the callback is not
    invoked after that excerpt, so the second excerpt is processed (a sixth
    completion is requested) before the run stops. *)
Lemma progress_stop_counterexample :
  (splitText Demo.emptyAnswerEnv (splitterOf Demo.docPrompt Demo.stopAlways) Demo.speech
     = (4, [mkExcerpt "first part" 2 50%float; mkExcerpt "second part" 2 50%float])
   /\ exists r w1 d w,
        call Demo.emptyAnswerEnv (dprompt Demo.docPrompt)
          (stepArgs Demo.emptyAnswerEnv Demo.docPrompt Demo.stopAlways 4
             (mkExcerpt "first part" 2 50%float) (mkDocSt Demo.world0 0 0 (VInt 0) (Fin 0) VUndef 0))
          5 1000 Demo.world0 = Ok (Some r) w1
        /\ response r = VStr EmptyString
        /\ docRun Demo.emptyAnswerEnv Demo.docPrompt Demo.stopAlways Demo.speech Demo.world0 = Ok d w
        /\ count d = 1 /\ dresponse d = VUndef)
  /\
  (exists d w,
     docRun Demo.failFiveThenValid Demo.docPrompt Demo.stopAlways Demo.speech Demo.world0 = Ok d w
     /\ count d = 1 /\ count_complete (trace w) = 6%nat).
Proof.
  split; [split; [vm_compute; reflexivity|]|].
  - do 4 eexists. split; [vm_compute; reflexivity|].
    split; [reflexivity|]. split; [vm_compute; reflexivity|]. vm_compute. split; reflexivity.
  - do 2 eexists. split; [vm_compute; reflexivity|]. vm_compute. split; reflexivity.
Qed.

(** C7 (amended). With a progress callback [f], in any mode (dry run or
    not), for any document: (1) after each excerpt whose processing
    returned, [f] is invoked once with that excerpt's [args] extended with
    the running state (cost, tokensSent, tokensReceived, response and the
    count, just incremented); an answer "stop" ends the loop at once with
    that state, any other answer or a throw from [f] goes on with the next
    excerpt; (2) an excerpt whose processing threw is skipped without
    invoking [f]. (3) Outside dry-run mode, for a text that splits into
    exactly two excerpts, when the first excerpt's call returns a result [r]
    and [f] answers "stop" after it: the run ends with [count = 1], with the
    world as that first call left it (nothing is requested for the second
    excerpt), and with the response [r.response] when it is truthy,
    [undefined] when it is falsy. *)
Theorem progress_stop_halts (env : Env) (dp : DocumentPrompt) (settings : Settings)
    (f : Data -> string + value) :
  progress settings = Some f ->
  (forall total e es d args d1,
     processExcerpt env dp settings total e d = Ok args d1 ->
     count d1 = count d + 1
     /\ excerptLoop env dp settings total (e :: es) d =
        match f (progressArgs args d1) with
        | inl _ => excerptLoop env dp settings total es d1
        | inr v => if isStop v then Ok tt d1 else excerptLoop env dp settings total es d1
        end)
  /\ (forall total e es d err d',
        processExcerpt env dp settings total e d = Err err d' ->
        excerptLoop env dp settings total (e :: es) d = excerptLoop env dp settings total es d')
  /\ (forall text w w1 total e1 e2 r,
        truthy (lookup "dryrun" (sdata settings)) = false ->
        splitText env (splitterOf dp settings) text = (total, [e1; e2]) ->
        let d0 := mkDocSt w 0 0 (VInt 0) (Fin 0) VUndef 0 in
        let args1 := stepArgs env dp settings total e1 d0 in
        call env (dprompt dp) args1 5 1000 w = Ok (Some r) w1 ->
        let d1 := afterExcerpt e1 (addResult env (Some r) (set_world w1 d0)) in
        f (progressArgs args1 d1) = inr (VStr "stop") ->
        docRun env dp settings text w = Ok d1 w1
        /\ count d1 = 1
        /\ dresponse d1 = (if truthy (response r) then response r else VUndef)).
Proof.
  intros Hf. split; [|split].
  - intros total e es d args d1 Hp. split.
    + unfold processExcerpt, bind, get, modify, ret in Hp.
      destruct (truthy (lookup "dryrun" (sdata settings))).
      * injection Hp as <- <-. reflexivity.
      * unfold liftWorld in Hp.
        destruct (call _ _ _ _ _ _) as [| ? ? | data ?]; try discriminate.
        injection Hp as <- <-. destruct data; reflexivity.
    + rewrite excerptLoop_cons, Hp, Hf. reflexivity.
  - intros total e es d err d' Hp. rewrite excerptLoop_cons, Hp. reflexivity.
  - intros text w w1 total e1 e2 r Hd Hs d0 args1 Hc d1 Hstop.
    split; [|split].
    + unfold docRun. rewrite Hs.
      rewrite excerptLoop_cons, (processExcerpt_call _ _ _ _ _ _ Hd).
      fold d0. fold args1. change (dworld d0) with w. rewrite Hc, Hf.
      fold d1. rewrite Hstop. reflexivity.
    + reflexivity.
    + reflexivity.
Qed.

Lemma progress_stop_halts_witness :
  progress Demo.stopAlways = Some (fun _ => inr (VStr "stop"))
  /\ exists d1 w1,
       docRun Demo.validTwoParts Demo.docPrompt Demo.stopAlways Demo.speech Demo.world0 = Ok d1 w1
       /\ count d1 = 1 /\ dresponse d1 = VObj "[a, b, c]".
Proof.
  split; [reflexivity|].
  destruct (progress_stop_halts Demo.validTwoParts Demo.docPrompt Demo.stopAlways
              (fun _ => inr (VStr "stop")) eq_refl) as (_ & _ & H).
  assert (Hc : exists r w1,
     call Demo.validTwoParts (dprompt Demo.docPrompt)
       (stepArgs Demo.validTwoParts Demo.docPrompt Demo.stopAlways 4
          (mkExcerpt "first part" 2 50%float) (mkDocSt Demo.world0 0 0 (VInt 0) (Fin 0) VUndef 0))
       5 1000 Demo.world0 = Ok (Some r) w1
     /\ response r = VObj "[a, b, c]").
  { do 2 eexists. split; [vm_compute; reflexivity | reflexivity]. }
  destruct Hc as (r & w1 & Hc & Hr).
  destruct (H Demo.speech Demo.world0 w1 4 (mkExcerpt "first part" 2 50%float)
               (mkExcerpt "second part" 2 50%float) r eq_refl)
    as (Hrun & Hcount & Hresp).
  - vm_compute. reflexivity.
  - exact Hc.
  - reflexivity.
  - do 2 eexists. split; [exact Hrun|]. split; [exact Hcount|].
    rewrite Hresp, Hr. reflexivity.
Defined.

(** ** Prompt.chunksFromArray *)

Lemma str_app_assoc (a b c : string) : (a ++ b) ++ c = a ++ (b ++ c).
Proof. induction a as [|x a IH]; simpl; [reflexivity|now rewrite IH]. Qed.

Lemma str_app_nil_r (a : string) : a ++ EmptyString = a.
Proof. induction a as [|x a IH]; simpl; [reflexivity|now rewrite IH]. Qed.

Lemma str_concat_cons2 (d a b : string) (l : list string) :
  String.concat d (a :: b :: l) = a ++ d ++ String.concat d (b :: l).
Proof. reflexivity. Qed.

Lemma str_concat_snoc (d : string) (g : list string) (x : string) :
  g <> [] -> String.concat d (g ++ [x])%list = String.concat d g ++ d ++ x.
Proof.
  intros Hg. induction g as [|y g IH]; [congruence|].
  destruct g as [|z g].
  - reflexivity.
  - cbn [app] in *. rewrite !str_concat_cons2.
    rewrite IH by discriminate. now rewrite !str_app_assoc.
Qed.

Lemma str_concat_app (d : string) (a b : list string) :
  a <> [] -> b <> [] ->
  String.concat d (a ++ b)%list = String.concat d a ++ d ++ String.concat d b.
Proof.
  intros Ha Hb. induction a as [|y a IH]; [congruence|].
  destruct a as [|z a].
  - cbn [app]. destruct b; [congruence|reflexivity].
  - cbn [app] in *. destruct b as [|w b]; [congruence|]. rewrite !str_concat_cons2.
    rewrite IH by discriminate. now rewrite !str_app_assoc.
Qed.

Lemma concat_map_concat (d : string) (gs : list (list string)) :
  Forall (fun g => g <> []) gs ->
  String.concat d (map (String.concat d) gs) = String.concat d (List.concat gs).
Proof.
  induction 1 as [|g gs Hg Hgs IH]; [reflexivity|].
  cbn [map List.concat].
  destruct gs as [|g' gs'].
  - cbn. now rewrite app_nil_r.
  - change (String.concat d (String.concat d g :: map (String.concat d) (g' :: gs')))
      with (String.concat d g ++ d ++ String.concat d (map (String.concat d) (g' :: gs'))).
    rewrite IH, str_concat_app; [reflexivity|exact Hg|].
    inversion Hgs as [|? ? Hg' _]; subst. cbn. destruct g'; [congruence|discriminate].
Qed.

Lemma nonEmpty_concat (d : string) (g : list string) :
  Forall (fun x => nonEmpty x = true) g -> g <> [] -> nonEmpty (String.concat d g) = true.
Proof.
  intros Hf Hg. destruct g as [|x g]; [congruence|].
  inversion Hf as [|? ? Hx _]; subst.
  destruct g as [|y g]; [exact Hx|].
  cbn [String.concat]. destruct x; [discriminate|reflexivity].
Qed.

Lemma groupTokens_snoc env dT g x :
  groupTokens env dT (g ++ [x])%list = groupTokens env dT g + numTokens env x + dT.
Proof.
  unfold groupTokens. rewrite map_app, fold_right_app, length_app. cbn.
  assert (forall l z, fold_right Z.add z l = fold_right Z.add 0 l + z) as Hf.
  { induction l as [|a l IH]; intros z; cbn; [lia|rewrite IH; lia]. }
  rewrite (Hf _ (numTokens env x + 0)). lia.
Qed.

Lemma groupsFit_snoc env m dT gs g :
  groupsFit env m dT (gs ++ [g])%list <->
  groupsFit env m dT gs
  /\ groupFits env dT (match gs with [] => m + dT | _ => m end) g.
Proof.
  destruct gs as [|g0 gs]; cbn.
  - split; [intros [H _]; tauto|intros [_ H]; split; [exact H|constructor]].
  - rewrite Forall_app. split.
    + intros [H0 [Hr Hl]]. inversion Hl; subst. tauto.
    + intros [[H0 Hr] Hg]. repeat split; auto.
Qed.

Lemma filter_nonEmpty_cons_app (l : list string) (x : string) :
  filter nonEmpty (l ++ [x])%list = (filter nonEmpty l ++ (if nonEmpty x then [x] else []))%list.
Proof. rewrite filter_app. cbn. now destruct (nonEmpty x). Qed.

Lemma greedy_snoc2 env m dT off l a x bs :
  greedyFrom env m dT off ((l ++ [a]) ++ [x :: bs])%list
  <-> greedyFrom env m dT off (l ++ [a])%list
      /\ m < groupTokens env dT a - match l with [] => off | _ => 0 end + numTokens env x + dT.
Proof.
  revert off. induction l as [|c l IH]; intros off.
  - cbn. tauto.
  - cbn [app greedyFrom]. rewrite IH.
    destruct l as [|c' l]; cbn [app]; [destruct a|]; tauto.
Qed.

Lemma greedy_last_head env m dT off l a a' :
  hd_error a = hd_error a' ->
  greedyFrom env m dT off (l ++ [a])%list <-> greedyFrom env m dT off (l ++ [a'])%list.
Proof.
  intros Hh. revert off. induction l as [|c l IH]; intros off.
  - cbn. tauto.
  - cbn [app greedyFrom]. rewrite IH.
    destruct l as [|c' l]; cbn [app]; [|tauto].
    destruct a as [|y a], a' as [|y' a']; cbn in Hh; try discriminate; [tauto|].
    injection Hh as ->. tauto.
Qed.

Lemma chunkStep_inv env m d st gs g pre el :
  chunkInv env m (numTokens env d) d st gs g pre ->
  exists gs' g', chunkInv env m (numTokens env d) d
                   (chunkStep env m (numTokens env d) d st el) gs' g' (pre ++ [el])%list.
Proof.
  destruct st as [[chunks cur] tc].
  intros (Hch & Hcur & Hg0 & Htc & Hcat & Hne & Hfit & Hgr).
  set (dT := numTokens env d) in *.
  assert (Helts : forall x, In x (List.concat (gs ++ [g])%list) -> nonEmpty x = true).
  { intros x Hx. rewrite Hcat in Hx. now apply filter_In in Hx. }
  unfold chunkStep.
  destruct (nonEmpty el) eqn:Hel; cbn [negb].
  2:{ exists gs, g. repeat split; auto. rewrite filter_nonEmpty_cons_app, Hel, app_nil_r.
      exact Hcat. }
  destruct g as [|x g'].
  - (* the first element *)
    specialize (Hg0 eq_refl). subst gs. cbn in Hcur. subst cur chunks.
    exists [], [el]. cbn. repeat split.
    + intros _. unfold groupTokens. cbn. lia.
    + rewrite filter_nonEmpty_cons_app, Hel. cbn in Hcat. now rewrite <- Hcat.
    + constructor.
    + intros Hl. cbn in Hl. lia.
    + constructor.
  - set (g := x :: g') in *.
    assert (Hgne : g <> []) by discriminate.
    assert (Hcur1 : nonEmpty cur = true).
    { rewrite Hcur. apply nonEmpty_concat; [|exact Hgne].
      apply Forall_forall. intros y Hy. apply Helts.
      rewrite concat_app. apply in_or_app. right. cbn. now rewrite app_nil_r. }
    rewrite Hcur1. cbn [negb orb].
    specialize (Htc Hgne).
    destruct (m <? numTokens env el + dT + tc) eqn:Hlt.
    + (* the chunk is closed and [el] opens the next one *)
      cbn. exists (gs ++ [g])%list, [el]. repeat split.
      * rewrite Hch, map_app. cbn. now rewrite Hcur.
      * intros H. discriminate.
      * intros _. destruct (gs ++ [g])%list eqn:E; [destruct gs; discriminate|].
        unfold groupTokens. cbn. lia.
      * rewrite concat_app, filter_nonEmpty_cons_app, Hel, <- Hcat. cbn. now rewrite ?app_nil_r.
      * apply Forall_app. split; [exact Hne|]. constructor; [exact Hgne|constructor].
      * apply groupsFit_snoc. split; [exact Hfit|]. intros Hl. cbn in Hl. lia.
      * apply greedy_snoc2. split; [exact Hgr|]. apply Z.ltb_lt in Hlt. destruct gs; lia.
    + (* [el] joins the open chunk *)
      rewrite Hcur1. cbn.
      exists gs, (g ++ [el])%list. apply Z.ltb_ge in Hlt. repeat split.
      * exact Hch.
      * rewrite Hcur, str_concat_snoc by exact Hgne. reflexivity.
      * intros H. destruct g; discriminate.
      * intros _. rewrite groupTokens_snoc, Htc. lia.
      * rewrite filter_nonEmpty_cons_app, Hel, <- Hcat, !concat_app. cbn.
        rewrite !app_nil_r, <- app_assoc. reflexivity.
      * exact Hne.
      * apply groupsFit_snoc in Hfit as [Hfs _]. apply groupsFit_snoc. split; [exact Hfs|].
        intros _. rewrite groupTokens_snoc.
        destruct gs; lia.
      * apply (proj1 (greedy_last_head env m dT dT gs g (g ++ [el])%list eq_refl)). exact Hgr.
Qed.

Lemma chunks_fold_inv env m d arr st gs g pre :
  chunkInv env m (numTokens env d) d st gs g pre ->
  exists gs' g', chunkInv env m (numTokens env d) d
                   (fold_left (chunkStep env m (numTokens env d) d) arr st) gs' g' (pre ++ arr)%list.
Proof.
  revert st gs g pre. induction arr as [|el arr IH]; intros st gs g pre H.
  - exists gs, g. now rewrite app_nil_r.
  - destruct (chunkStep_inv env m d st gs g pre el H) as (gs1 & g1 & H1).
    destruct (IH _ _ _ _ H1) as (gs2 & g2 & H2).
    exists gs2, g2. cbn [fold_left]. now rewrite <- app_assoc in H2.
Qed.

(** The chunks are made of consecutive groups of the non-empty elements:
    each chunk is its group joined with the delimiter. *)
Lemma chunksFromArray_groups_aux env arr m d :
  exists gs,
    chunksFromArray env arr m d = map (String.concat d) gs
    /\ List.concat gs = filter nonEmpty arr
    /\ Forall (fun g => g <> []) gs
    /\ groupsFit env m (numTokens env d) gs
    /\ greedyFrom env m (numTokens env d) (numTokens env d) gs.
Proof.
  assert (H0 : chunkInv env m (numTokens env d) d ([], EmptyString, 0) [] [] []).
  { cbn. repeat split; try constructor; try (intros Hl; cbn in Hl; lia); congruence. }
  destruct (chunks_fold_inv env m d arr _ _ _ _ H0) as (gs & g & H).
  unfold chunksFromArray.
  destruct (fold_left _ arr _) as [[chunks cur] tc].
  destruct H as (Hch & Hcur & Hg0 & _ & Hcat & Hne & Hfit & Hgr).
  destruct g as [|x g'].
  - specialize (Hg0 eq_refl). subst gs cur chunks. cbn.
    exists []. cbn in Hcat. repeat split; [exact Hcat|constructor].
  - set (g := x :: g') in *.
    assert (Hcur1 : nonEmpty cur = true).
    { rewrite Hcur. apply nonEmpty_concat; [|discriminate].
      apply Forall_forall. intros y Hy.
      assert (Hin : In y (List.concat (gs ++ [g])%list)).
      { rewrite concat_app. apply in_or_app. right. cbn. now rewrite app_nil_r. }
      rewrite Hcat in Hin. now apply filter_In in Hin. }
    rewrite Hcur1. exists (gs ++ [g])%list. repeat split.
    + rewrite Hch, Hcur, map_app. reflexivity.
    + exact Hcat.
    + apply Forall_app. split; [exact Hne|]. constructor; [discriminate|constructor].
    + exact Hfit.
    + exact Hgr.
Qed.

Lemma length_le_concat (gs : list (list string)) :
  Forall (fun g => g <> []) gs -> (length gs <= length (List.concat gs))%nat.
Proof.
  induction 1 as [|g gs Hg _ IH]; cbn; [lia|].
  rewrite length_app. destruct g; [congruence|cbn; lia].
Qed.

(** [chunksFromArray] loses and adds nothing: joining its chunks with the
    delimiter gives the non-empty elements joined with the delimiter. *)
Theorem chunksFromArray_join (env : Env) (arr : list string) (maxTokens : Z)
    (delimeter : string) :
  String.concat delimeter (chunksFromArray env arr maxTokens delimeter)
  = String.concat delimeter (filter nonEmpty arr).
Proof.
  destruct (chunksFromArray_groups_aux env arr maxTokens delimeter) as (gs & Hch & Hcat & Hne & _).
  rewrite Hch, concat_map_concat by exact Hne. now rewrite Hcat.
Qed.

(** No chunk is empty; there are at most as many chunks as non-empty
    elements, and none exactly when every element is empty. *)
Theorem chunksFromArray_nonempty (env : Env) (arr : list string) (maxTokens : Z)
    (delimeter : string) :
  let chunks := chunksFromArray env arr maxTokens delimeter in
  Forall (fun c => nonEmpty c = true) chunks
  /\ (length chunks <= length (filter nonEmpty arr))%nat
  /\ (chunks = [] <-> filter nonEmpty arr = []).
Proof.
  destruct (chunksFromArray_groups_aux env arr maxTokens delimeter) as (gs & Hch & Hcat & Hne & _).
  cbv zeta. rewrite Hch. split; [|split].
  - apply Forall_forall. intros c Hc. apply in_map_iff in Hc as (g & <- & Hg).
    apply nonEmpty_concat.
    + apply Forall_forall. intros x Hx.
      assert (Hin : In x (filter nonEmpty arr)).
      { rewrite <- Hcat. apply in_concat. now exists g. }
      now apply filter_In in Hin.
    + exact (proj1 (Forall_forall _ _) Hne g Hg).
  - rewrite length_map, <- Hcat. now apply length_le_concat.
  - rewrite <- Hcat. split.
    + intros H. destruct gs; [reflexivity|discriminate].
    + intros H. destruct gs as [|g gs]; [reflexivity|].
      inversion Hne as [|? ? Hg _]; subst. cbn in H.
      destruct g; [congruence|discriminate].
Qed.

Lemma greedy_nth env m dT off gs :
  greedyFrom env m dT off gs ->
  forall i g1 x g2, nth_error gs i = Some g1 -> nth_error gs (S i) = Some (x :: g2) ->
    m < groupTokens env dT g1 - (if (i =? 0)%nat then off else 0) + numTokens env x + dT.
Proof.
  revert off. induction gs as [|g gs IH]; intros off Hg i g1 x g2 H1 H2; [destruct i; discriminate|].
  destruct Hg as [Hh Hr]. destruct i as [|i].
  - cbn in H1, H2. injection H1 as <-. destruct gs as [|g' gs]; [discriminate|].
    cbn in H2. injection H2 as ->. exact Hh.
  - cbn in H1, H2. pose proof (IH 0 Hr i g1 x g2 H1 H2) as H.
    destruct (i =? 0)%nat; exact H.
Qed.

(** The chunks are consecutive groups of the non-empty elements, each
    joined with the delimiter. A chunk that joins two or more elements keeps
    the elements' token counts plus one delimiter count per joint within
    [maxTokens], except the first chunk, which may exceed it by one
    delimiter count (its first element is counted without its delimiter
    and then has one delimiter count subtracted); a single element is never
    split, whatever its count. Each chunk but the last was closed because
    adding the next element with its delimiter would take the running count
    the code keeps (one delimiter count short for the first chunk) over
    [maxTokens]. *)
Theorem chunksFromArray_groups (env : Env) (arr : list string) (maxTokens : Z)
    (delimeter : string) :
  exists gs,
    chunksFromArray env arr maxTokens delimeter = map (String.concat delimeter) gs
    /\ List.concat gs = filter nonEmpty arr
    /\ Forall (fun g => g <> []) gs
    /\ match gs with
       | [] => True
       | g0 :: rest =>
         ((2 <= length g0)%nat ->
            groupTokens env (numTokens env delimeter) g0 <= maxTokens + numTokens env delimeter)
         /\ Forall (fun g => (2 <= length g)%nat ->
                      groupTokens env (numTokens env delimeter) g <= maxTokens) rest
       end
    /\ (forall i g1 x g2,
          nth_error gs i = Some g1 -> nth_error gs (S i) = Some (x :: g2) ->
          maxTokens < groupTokens env (numTokens env delimeter) g1
                      - (if (i =? 0)%nat then numTokens env delimeter else 0)
                      + numTokens env x + numTokens env delimeter).
Proof.
  destruct (chunksFromArray_groups_aux env arr maxTokens delimeter) as (gs & H1 & H2 & H3 & H4 & H5).
  exists gs. split; [exact H1|]. split; [exact H2|]. split; [exact H3|]. split.
  - exact H4.
  - exact (greedy_nth _ _ _ _ _ H5).
Qed.

(** ** The model registries *)

Lemma ownGet_objSet {A} (k k' : string) (v : A) (o : list (string * A)) :
  ownGet k (objSet k' v o) = if String.eqb k k' then Some v else ownGet k o.
Proof.
  induction o as [|[k'' v''] o IH]; cbn.
  - reflexivity.
  - destruct (String.eqb k' k'') eqn:E1.
    + apply String.eqb_eq in E1. subst k''. cbn. now destruct (String.eqb k k').
    + cbn. rewrite IH. destruct (String.eqb k k'') eqn:E2; [|reflexivity].
      apply String.eqb_eq in E2. subst k''.
      destruct (String.eqb k k') eqn:E3; [|reflexivity].
      apply String.eqb_eq in E3. subst k'. now rewrite String.eqb_refl in E1.
Qed.

Lemma find_snoc {B} (f : B -> bool) (l : list B) (x : B) :
  find f (l ++ [x])%list = match find f l with Some y => Some y | None => if f x then Some x else None end.
Proof. induction l as [|y l IH]; cbn; [reflexivity|]. now destruct (f y). Qed.

Lemma registry_fold {A} (mk : Model -> A) (name : string) (l : list Model) acc :
  ownGet name (fold_left (fun acc s => objSet (modelName s) (mk s) acc) l acc)
  = match find (fun s => String.eqb name (modelName s)) (rev l) with
    | Some s => Some (mk s)
    | None => ownGet name acc
    end.
Proof.
  revert acc. induction l as [|s l IH]; intros acc; cbn; [reflexivity|].
  rewrite IH, find_snoc, ownGet_objSet.
  destruct (find _ (rev l)); [reflexivity|]. now destruct (String.eqb name (modelName s)).
Qed.

(** No property of [Object.prototype] has a name matching [/^gpt/i]. *)
Lemma gptName_not_prototype_key (name : string) :
  isGptName name = true -> isObjectPrototypeKey name = false.
Proof.
  destruct name as [|a [|b [|c rest]]]; cbn; try discriminate.
  intros H. apply andb_prop in H as [H _]. apply andb_prop in H as [Ha _].
  apply orb_prop in Ha as [Ha | Ha]; apply Ascii.eqb_eq in Ha; subst a; reflexivity.
Qed.

(** [models[name]] (and [rateLimiters[name]], built the same way) is the
    object made from the last entry of the settings file named [name] when
    there is one. Otherwise it is the property [name] inherited from
    [Object.prototype] when there is one (so [models['constructor']] and
    [rateLimiters['toString']] are functions), and [undefined] otherwise. A
    name that does not match [/^gpt/i] never has an own entry; a name that
    matches it is never inherited. *)
Theorem registry_lookup {A} (mk : Model -> A) (settings : list Model) (name : string) :
  objGet name (registry mk settings)
  = match find (fun s => String.eqb name (modelName s)) (rev (gptSettings settings)) with
    | Some s => Own (mk s)
    | None => if isObjectPrototypeKey name then Inherited name else Missing
    end
  /\ (isGptName name = false ->
      objGet name (registry mk settings)
      = if isObjectPrototypeKey name then Inherited name else Missing)
  /\ (isGptName name = true ->
      objGet name (registry mk settings)
      = match find (fun s => String.eqb name (modelName s)) (rev (gptSettings settings)) with
        | Some s => Own (mk s)
        | None => Missing
        end).
Proof.
  assert (H : objGet name (registry mk settings)
    = match find (fun s => String.eqb name (modelName s)) (rev (gptSettings settings)) with
      | Some s => Own (mk s)
      | None => if isObjectPrototypeKey name then Inherited name else Missing
      end).
  { unfold objGet, registry. rewrite registry_fold. now destruct (find _ _). }
  split; [exact H|]. split.
  - intros Hn. rewrite H.
    destruct (find _ _) as [s|] eqn:Hf; [|reflexivity].
    apply find_some in Hf as [Hin Heq]. apply String.eqb_eq in Heq. subst name.
    apply in_rev, filter_In in Hin as [_ Hg]. congruence.
  - intros Hg. rewrite H, (gptName_not_prototype_key name Hg). reflexivity.
Qed.

(** ** Request accounting *)

Lemma reqAccount_log w ev :
  reqAccount (mkWorld (limiter w) (trace w ++ [ev])) = reqAccount w + evWeight ev.
Proof.
  unfold reqAccount. cbn. rewrite count_complete_app, count_repair_app.
  destruct ev; cbn; lia.
Qed.

Section Accounting.
Context {S : Type} `{HasWorld S}.
Hypothesis world_set : forall w s, world (set_world w s) = w.

Lemma shifts_weaken {A} n n' (m : M S A) : n = n' -> Shifts n m -> Shifts n' m.
Proof. now intros ->. Qed.

Lemma shifts_ret {A} (a : A) : Shifts 0 (ret a).
Proof. intros s. cbn. split; [lia|reflexivity]. Qed.

Lemma shifts_throw {A} e : Shifts (A := A) 0 (throw e).
Proof. intros s. cbn. split; [lia|reflexivity]. Qed.

Lemma shifts_modify f : (forall s, world (f s) = world s) -> Shifts 0 (modify f).
Proof. intros Hf s. cbn. rewrite Hf. split; [lia|reflexivity]. Qed.

Lemma shifts_bind0 {A B} n (m : M S A) (f : A -> M S B) :
  Shifts n m -> (forall x, Shifts 0 (f x)) -> Shifts n (bind m f).
Proof.
  intros Hm Hf s. specialize (Hm s). unfold bind.
  destruct (m s) as [| e s1 | a s1]; [exact I|exact Hm|].
  specialize (Hf a s1). destruct (f a s1); [exact I|..]; destruct Hm, Hf; split; congruence || lia.
Qed.

Lemma shifts_get_bind {B} n (f : S -> M S B) :
  (forall x, Shifts n (f x)) -> Shifts n (bind get f).
Proof. intros Hf s. exact (Hf s s). Qed.

Lemma shifts_getWorld_bind {B} n (f : World -> M S B) :
  (forall x, Shifts n (f x)) -> Shifts n (bind getWorld f).
Proof. intros Hf s. exact (Hf (world s) s). Qed.

Lemma shifts_log_bind {B} n ev (k : M S B) :
  Shifts n k -> Shifts (evWeight ev + n) (logEvent ev ;;; k).
Proof.
  intros Hk s. unfold logEvent, bind, getWorld, get, ret, putWorld, modify.
  cbn -[reqAccount refreshAmounts].
  specialize (Hk (set_world (mkWorld (limiter (world s)) (trace (world s) ++ [ev])) s)).
  rewrite world_set, reqAccount_log in Hk.
  destruct (k _); [exact I|..]; destruct Hk as [Hk1 Hk2]; split;
    [lia| rewrite Hk2; reflexivity| lia| rewrite Hk2; reflexivity].
Qed.

Lemma shifts_try0 {A} (m : M S A) h :
  Shifts 0 m -> (forall e, Shifts 0 (h e)) -> Shifts 0 (try_catch m h).
Proof.
  intros Hm Hh s. specialize (Hm s). unfold try_catch.
  destruct (m s) as [| e s1 | a s1]; [exact I| |exact Hm].
  specialize (Hh e s1). destruct (h e s1); [exact I|..]; destruct Hm, Hh; split; congruence || lia.
Qed.

Lemma shifts_process {A} (t : M S (A * list ReportCall)) :
  Shifts 1 t -> Shifts 0 (process t).
Proof.
  intros Ht s.
  unfold process, bind, getWorld, get, ret, setLimiter, putWorld, modify, suspend.
  cbn -[reqAccount refreshAmounts schedule].
  destruct (schedule (requestLimiter (limiter (world s)))) as [rq|] eqn:Erq; [|exact I].
  destruct (schedule (tokenLimiter (limiter (world s)))) as [tk|] eqn:Etk; [|exact I].
  unfold schedule in Erq, Etk.
  destruct (1 <=? available (requestLimiter (limiter (world s)))); [|discriminate].
  destruct (1 <=? available (tokenLimiter (limiter (world s)))); [|discriminate].
  injection Erq as <-. injection Etk as <-.
  set (s1 := set_world _ s).
  specialize (Ht s1). unfold s1 in Ht. rewrite world_set in Ht.
  destruct (t _) as [| e s2 | [a calls] s2]; [exact I| |].
  - unfold reqAccount, refreshAmounts in *. cbn in Ht. destruct Ht as [Ht1 Ht2].
    split; [lia|]. rewrite Ht2. reflexivity.
  - rewrite world_set. unfold reqAccount, refreshAmounts in *. cbn in *.
    destruct Ht as [Ht1 Ht2]. injection Ht2 as Hr1 Hr2.
    split; [lia|]. now rewrite Hr1, Hr2.
Qed.

Lemma shifts_parse env jp text promptTokens : Shifts 0 (parse env jp text promptTokens).
Proof.
  unfold parse. destruct (directParse env text); [apply shifts_ret|].
  apply shifts_bind0; [|intros; apply shifts_ret].
  apply shifts_process. apply shifts_getWorld_bind. intros w.
  apply (shifts_weaken (evWeight (EvRepair text) + 0)); [reflexivity|].
  apply shifts_log_bind.
  destruct (fixParse env _ text); [apply shifts_throw|apply shifts_ret].
Qed.
End Accounting.

Lemma callSt_world_set w (c : CallSt) : world (set_world w c) = w.
Proof. reflexivity. Qed.

Lemma world_world_set w (w0 : World) : world (set_world w w0) = w.
Proof. reflexivity. Qed.

Lemma docSt_world_set w (d : DocSt) : world (set_world w d) = w.
Proof. reflexivity. Qed.

Lemma shifts_attemptTask env p pd : Shifts 1 (attemptTask env p pd).
Proof.
  unfold attemptTask.
  apply shifts_getWorld_bind. intros w.
  apply (shifts_weaken (evWeight (EvComplete pd) + 0)); [reflexivity|].
  apply shifts_log_bind; [exact callSt_world_set|].
  destruct (complete env _ pd) as [e|rawText]; [apply shifts_throw|].
  apply shifts_bind0; [apply shifts_modify; reflexivity|intros _].
  apply shifts_get_bind. intros c1.
  apply shifts_bind0; [apply shifts_parse; exact callSt_world_set|intros parsed].
  apply shifts_bind0; [apply shifts_modify; reflexivity|intros _].
  apply shifts_get_bind. intros c2. apply shifts_ret.
Qed.

Lemma shifts_retryLoop fuel env p pd retries retryDelay :
  Shifts 0 (retryLoop fuel env p pd retries retryDelay).
Proof.
  revert retries. induction fuel as [|fuel IH]; intros retries; cbn [retryLoop].
  - apply shifts_ret.
  - destruct (0 <? retries); [|apply shifts_ret].
    apply shifts_try0.
    + apply shifts_bind0; [|intros; apply shifts_ret].
      apply shifts_process; [exact callSt_world_set|]. apply shifts_attemptTask.
    + intros e. destruct (retries - 1 =? 0); [apply shifts_throw|].
      apply (shifts_weaken (evWeight (EvSleep retryDelay) + 0)); [reflexivity|].
      apply shifts_log_bind; [exact callSt_world_set|]. apply IH.
Qed.

Lemma shifts_call env p data retries retryDelay :
  Shifts 0 (call env p data retries retryDelay).
Proof.
  unfold call. destruct (_ <? 0); [apply shifts_throw|].
  destruct (truthy _); [apply shifts_ret|].
  intros w. unfold frame.
  pose proof (shifts_retryLoop (Z.to_nat retries) env p
    (callData p data (measuredTokens p data) (maxTokens (pmodel p) - measuredTokens p data))
    retries retryDelay (mkCallSt w 0 0 (Fin 0))) as Hr.
  destruct (retryLoop _ _ _ _ _ _ _); exact Hr.
Qed.

Lemma shifts_liftWorld {A} n (m : M World A) : Shifts n m -> Shifts n (liftWorld m).
Proof.
  intros Hm d. specialize (Hm (dworld d)). unfold liftWorld.
  destruct (m (dworld d)); exact Hm.
Qed.

Lemma shifts_excerptLoop env dp settings total es : Shifts 0 (excerptLoop env dp settings total es).
Proof.
  induction es as [|e es IH]; cbn [excerptLoop]; [apply shifts_ret|].
  apply shifts_bind0; [|intros stop; destruct stop; [apply shifts_ret|exact IH]].
  apply shifts_try0; [|intros; apply shifts_ret].
  unfold excerptStep.
  apply shifts_bind0.
  - unfold processExcerpt. apply shifts_get_bind. intros st.
    apply shifts_bind0; [|intros _; apply shifts_bind0;
                          [apply shifts_modify; reflexivity|intros _; apply shifts_ret]].
    destruct (truthy _); [apply shifts_modify; reflexivity|].
    apply shifts_bind0; [|intros data; apply shifts_modify; intros d; now destruct data].
    apply shifts_liftWorld, shifts_call.
  - intros args. destruct (progress settings) as [f|]; [|apply shifts_ret].
    apply shifts_get_bind. intros d. destruct (f _); [apply shifts_throw|apply shifts_ret].
Qed.

(** Every unit a [call] takes from the model's request reservoir goes with
    exactly one completion or repair request, on every outcome (returned or
    thrown): the available request units plus the completions and repairs
    requested stay constant, and neither reservoir's refresh amount
    changes. *)
Theorem call_request_accounting (env : Env) (p : Prompt) (data : Data)
    (retries retryDelay : Z) (w : World) :
  match call env p data retries retryDelay w with
  | Susp => True
  | Err _ w' | Ok _ w' =>
    available (requestLimiter (limiter w'))
      + Z.of_nat (count_complete (trace w') + count_repair (trace w'))
    = available (requestLimiter (limiter w))
      + Z.of_nat (count_complete (trace w) + count_repair (trace w))
    /\ refreshAmount (requestLimiter (limiter w')) = refreshAmount (requestLimiter (limiter w))
    /\ refreshAmount (tokenLimiter (limiter w')) = refreshAmount (tokenLimiter (limiter w))
  end.
Proof.
  pose proof (shifts_call env p data retries retryDelay w) as H.
  destruct (call env p data retries retryDelay w) as [| e w' | a w']; [exact I| |];
    destruct H as [H1 H2]; unfold reqAccount, refreshAmounts in *; cbn in *;
    injection H2 as H2 H3; repeat split; lia.
Qed.

(** The same holds for a whole [DocumentPrompt.call] run: its excerpts'
    calls, failed or not, never take a request unit without requesting a
    completion or a repair for it. *)
Theorem docRun_request_accounting (env : Env) (dp : DocumentPrompt) (settings : Settings)
    (text : string) (w : World) :
  match docRun env dp settings text w with
  | Susp => True
  | Err _ w' | Ok _ w' =>
    available (requestLimiter (limiter w'))
      + Z.of_nat (count_complete (trace w') + count_repair (trace w'))
    = available (requestLimiter (limiter w))
      + Z.of_nat (count_complete (trace w) + count_repair (trace w))
    /\ refreshAmount (requestLimiter (limiter w')) = refreshAmount (requestLimiter (limiter w))
    /\ refreshAmount (tokenLimiter (limiter w')) = refreshAmount (tokenLimiter (limiter w))
  end.
Proof.
  unfold docRun. destruct (splitText _ _ text) as [total excerpts].
  pose proof (shifts_excerptLoop env dp settings total excerpts (mkDocSt w 0 0 (VInt 0) (Fin 0) VUndef 0)) as H.
  destruct (excerptLoop _ _ _ _ _ _) as [| e d | a d]; [exact I| |];
    destruct H as [H1 H2]; unfold reqAccount, refreshAmounts in *; cbn in *;
    injection H2 as H2 H3; repeat split; lia.
Qed.

(** With [retries <= 0] (outside dry-run mode, within budget) the [while]
    loop never runs: [call] returns [undefined] without requesting a
    completion and without touching the rate limiter. *)
Theorem call_without_retries (env : Env) (p : Prompt) (data : Data)
    (retries retryDelay : Z) (w : World) :
  0 <= maxTokens (pmodel p) - measuredTokens p data ->
  truthy (lookup "dryrun" data) = false ->
  retries <= 0 ->
  call env p data retries retryDelay w = Ok None w.
Proof.
  intros Hb Hd Hr. unfold call.
  destruct (Z.ltb_spec (maxTokens (pmodel p) - measuredTokens p data) 0); [lia|].
  rewrite Hd. replace (Z.to_nat retries) with O by lia. reflexivity.
Qed.

Lemma call_without_retries_witness :
  0 <= maxTokens (pmodel (Demo.listPrompt (Demo.unitModel 8192)))
       - measuredTokens (Demo.listPrompt (Demo.unitModel 8192)) Demo.listData
  /\ truthy (lookup "dryrun" Demo.listData) = false
  /\ 0 <= 0
  /\ call Demo.failThenValid (Demo.listPrompt (Demo.unitModel 8192)) Demo.listData 0 1000 Demo.world0
     = Ok None Demo.world0.
Proof.
  split; [vm_compute; discriminate|].
  split; [reflexivity|]. split; [lia|].
  apply call_without_retries.
  - vm_compute. discriminate.
  - reflexivity.
  - lia.
Defined.

(** A [call] (outside dry-run mode, within budget, [retries >= 1]) whose
    first completion parses directly returns after one completion: the
    parsed value, [tokensSent] the prompt's token count, [tokensReceived]
    the completion's, and the cost [calculateCost(tokensSent,
    tokensReceived)] of the model (NaN when a price is missing). The
    request reservoir loses the one admitted unit and the token reservoir
    the admitted unit plus the reported [tokensSent + tokensReceived]. *)
Theorem call_first_attempt_direct (env : Env) (p : Prompt) (data : Data)
    (retries retryDelay : Z) (w : World) (rawText : string) (v : value) :
  0 <= maxTokens (pmodel p) - measuredTokens p data ->
  truthy (lookup "dryrun" data) = false ->
  1 <= retries ->
  1 <= available (requestLimiter (limiter w)) ->
  1 <= available (tokenLimiter (limiter w)) ->
  let pd := callData p data (measuredTokens p data) (maxTokens (pmodel p) - measuredTokens p data) in
  complete env (count_complete (trace w)) pd = inr rawText ->
  directParse env rawText = Some v ->
  let ts := countTokens p pd in
  let tr := numTokens env rawText in
  exists r w',
    call env p data retries retryDelay w = Ok (Some r) w'
    /\ response r = v /\ tokensSent r = ts /\ tokensReceived r = VInt tr
    /\ match calculateCost (pmodel p) ts tr with
       | Fin q => exists q', cost r = Fin q' /\ Qeq q' q
       | x => cost r = x
       end
    /\ available (requestLimiter (limiter w')) = available (requestLimiter (limiter w)) - 1
    /\ available (tokenLimiter (limiter w')) = available (tokenLimiter (limiter w)) - 1 - (ts + tr)
    /\ trace w' = (trace w ++ [EvComplete pd])%list.
Proof.
  intros Hb Hd Hr Hrq Htk pd Hc Hp ts tr.
  unfold call.
  destruct (Z.ltb_spec (maxTokens (pmodel p) - measuredTokens p data) 0); [lia|].
  rewrite Hd. fold pd.
  destruct (Z.to_nat retries) as [|n] eqn:En; [lia|].
  unfold frame. cbn [retryLoop].
  replace (0 <? retries) with true by (symmetry; apply Z.ltb_lt; lia).
  unfold try_catch, attempt, process, bind, getWorld, get, ret, setLimiter, putWorld, modify.
  cbn -[schedule attemptTask].
  rewrite (schedule_some _ Hrq), (schedule_some _ Htk).
  unfold attemptTask, logEvent, bind, getWorld, get, ret, putWorld, modify, parse.
  cbn -[countTokens].
  rewrite Hc, Hp. cbn -[countTokens].
  eexists; eexists; split; [reflexivity|]. cbn -[countTokens].
  split; [reflexivity|]. split; [fold ts; lia|]. split; [fold tr; unfold VInt; do 3 f_equal; lia|].
  split.
  - fold ts tr. destruct (calculateCost (pmodel p) ts tr) as [q| |]; [|reflexivity..].
    eexists; split; [reflexivity|]. ring.
  - repeat split; cbn; fold ts tr; lia.
Qed.

Lemma call_first_attempt_direct_witness :
  let p := Demo.listPrompt (Demo.unitModel 8192) in
  let data := Demo.listData in
  let pd := callData p data (measuredTokens p data) (maxTokens (pmodel p) - measuredTokens p data) in
  (0 <= maxTokens (pmodel p) - measuredTokens p data
   /\ truthy (lookup "dryrun" data) = false
   /\ 1 <= 5
   /\ 1 <= available (requestLimiter (limiter Demo.world0))
   /\ 1 <= available (tokenLimiter (limiter Demo.world0))
   /\ complete Demo.validTwoParts (count_complete (trace Demo.world0)) pd = inr "[a, b, c]"
   /\ directParse Demo.validTwoParts "[a, b, c]" = Some (VObj "[a, b, c]"))
  /\
  (let ts := countTokens p pd in
   let tr := numTokens Demo.validTwoParts "[a, b, c]" in
   exists r w',
     call Demo.validTwoParts p data 5 1000 Demo.world0 = Ok (Some r) w'
     /\ response r = VObj "[a, b, c]" /\ tokensSent r = ts /\ tokensReceived r = VInt tr
     /\ match calculateCost (pmodel p) ts tr with
        | Fin q => exists q', cost r = Fin q' /\ Qeq q' q
        | x => cost r = x
        end
     /\ available (requestLimiter (limiter w')) = available (requestLimiter (limiter Demo.world0)) - 1
     /\ available (tokenLimiter (limiter w'))
        = available (tokenLimiter (limiter Demo.world0)) - 1 - (ts + tr)
     /\ trace w' = (trace Demo.world0 ++ [EvComplete pd])%list).
Proof.
  cbv zeta. split.
  - repeat split; try reflexivity; try (vm_compute; discriminate); lia.
  - apply call_first_attempt_direct.
    + vm_compute. discriminate.
    + reflexivity.
    + lia.
    + vm_compute. discriminate.
    + vm_compute. discriminate.
    + reflexivity.
    + reflexivity.
Defined.

(** ** The text splitter of a DocumentPrompt *)

Lemma Qfloor_inject_mul1 (z : Z) : Qfloor (inject_Z z * 1) = z.
Proof. unfold Qfloor. cbn. now rewrite Z.mul_1_r, Z.div_1_r. Qed.

(** [setTextSplitter(settings)]: with no [chunkSize] and no
    [bufferPercentage], the chunk size is 95% (rounded down) of what is left
    of the context once the prompt (its variables filled with '999999') and
    twice [responseTokenLength] are taken out; when that remainder is not
    negative, the chunk size lies between 0 and it. A non-zero [chunkSize]
    is used as given, and a missing [chunkOverlap] is 0. *)
Theorem setTextSplitter_sizes (dp : DocumentPrompt) (settings : Data) :
  let sp := setTextSplitter dp settings in
  let R := countRemainingTokens (dprompt dp) [] "999999" - 2 * responseTokenLength dp in
  (lookup "chunkSize" settings = VUndef -> lookup "bufferPercentage" settings = VUndef ->
     chunkSize sp = Qfloor (inject_Z R * (95 # 100))
     /\ (0 <= R -> 0 <= chunkSize sp <= R))
  /\ (forall n, lookup "chunkSize" settings = VInt n -> n <> 0 -> chunkSize sp = n)
  /\ (lookup "chunkOverlap" settings = VUndef -> chunkOverlap sp = 0).
Proof.
  cbv zeta. unfold setTextSplitter, newTextSplitter. cbn [chunkSize chunkOverlap].
  rewrite Qfloor_inject_mul1. split; [|split].
  - intros Hc Hb. rewrite Hc, Hb. cbn [chunkSizeOr]. split; [reflexivity|].
    intros HR.
    set (x := (inject_Z (countRemainingTokens (dprompt dp) [] "999999" - 2 * responseTokenLength dp)
               * (95 # 100))%Q).
    set (R := countRemainingTokens (dprompt dp) [] "999999" - 2 * responseTokenLength dp) in *.
    assert (HRq : (0 <= inject_Z R)%Q) by (change (inject_Z 0 <= inject_Z R)%Q; rewrite <- Zle_Qle; exact HR).
    assert (Hx0 : (0 <= x)%Q) by (unfold x; lra).
    assert (HxR : (x <= inject_Z R)%Q) by (unfold x; lra).
    split.
    + change 0 with (Qfloor 0). apply Qfloor_resp_le. exact Hx0.
    + rewrite Zle_Qle. apply Qle_trans with x; [apply Qfloor_le|exact HxR].
  - intros n Hc Hn. rewrite Hc. unfold VInt, chunkSizeOr.
    destruct (Qeq_bool (inject_Z n) 0) eqn:E.
    + apply Qeq_bool_iff in E. unfold Qeq in E. cbn in E. lia.
    + apply Qfloor_Z.
  - intros Ho. now rewrite Ho.
Qed.

Lemma setTextSplitter_sizes_witness :
  let dp := Demo.docPrompt in
  let settings : Data := [] in
  let sp := setTextSplitter dp settings in
  let R := countRemainingTokens (dprompt dp) [] "999999" - 2 * responseTokenLength dp in
  (lookup "chunkSize" settings = VUndef /\ lookup "bufferPercentage" settings = VUndef /\ 0 <= R)
  /\ chunkSize sp = Qfloor (inject_Z R * (95 # 100)) /\ 0 <= chunkSize sp <= R.
Proof.
  cbv zeta. split; [split; [reflexivity|split; [reflexivity|vm_compute; discriminate]]|].
  destruct (setTextSplitter_sizes Demo.docPrompt []) as [H _].
  destruct (H eq_refl eq_refl) as [H1 H2]. split; [exact H1|].
  apply H2. vm_compute. discriminate.
Defined.

(** ** DocumentPrompt.call in dry-run mode *)

Lemma processExcerpt_dry env dp settings total e d :
  truthy (lookup "dryrun" (sdata settings)) = true ->
  processExcerpt env dp settings total e d
  = Ok (stepArgs env dp settings total e d)
       (afterExcerpt e (addEstimate env dp (countTokens (dprompt dp) (stepArgs env dp settings total e d)) d)).
Proof. intros Hd. unfold processExcerpt, bind, get, modify, ret. now rewrite Hd. Qed.

Lemma excerptLoop_dry env dp settings total es d q0 :
  truthy (lookup "dryrun" (sdata settings)) = true -> progress settings = None ->
  dTokensReceived d = VNum (Fin q0) ->
  exists d' q', excerptLoop env dp settings total es d = Ok tt d'
    /\ count d' = count d + Z.of_nat (length es)
    /\ dTokensReceived d' = VNum (Fin q')
    /\ (q' - inject_Z (dTokensSent d') == q0 - inject_Z (dTokensSent d))%Q
    /\ dresponse d' = dresponse d /\ dworld d' = dworld d.
Proof.
  intros Hd Hp. revert d q0. induction es as [|e es IH]; intros d q0 Hq.
  - exists d, q0. cbn. repeat split; try lia; try assumption.
  - rewrite excerptLoop_cons, (processExcerpt_dry _ _ _ _ _ _ Hd), Hp.
    set (n := countTokens (dprompt dp) (stepArgs env dp settings total e d)).
    destruct (IH (afterExcerpt e (addEstimate env dp n d)) (q0 + inject_Z (n + responseTokenLength dp))%Q)
      as (d' & q' & H1 & H2 & H3 & H4 & H5 & H6).
    { cbn. rewrite Hq. reflexivity. }
    exists d', q'. rewrite H1. cbn in H2, H4, H5, H6.
    split; [reflexivity|]. split; [cbn [Datatypes.length]; lia|]. split; [exact H3|]. split; [|split; assumption].
    rewrite H4, !inject_Z_plus. ring.
Qed.

(** In dry-run mode without a progress callback, [DocumentPrompt.call]
    requests no completion and leaves the rate limiter as it was; it goes
    through every excerpt ([count] is their number), its [tokensReceived]
    is a number equal to its [tokensSent] (both add [tokenCount +
    responseTokenLength] per excerpt), and its response stays [undefined]. *)
Theorem docRun_dryrun (env : Env) (dp : DocumentPrompt) (settings : Settings)
    (text : string) (w : World) :
  truthy (lookup "dryrun" (sdata settings)) = true ->
  progress settings = None ->
  exists d,
    docRun env dp settings text w = Ok d w
    /\ count d = Z.of_nat (length (snd (splitText env (splitterOf dp settings) text)))
    /\ (exists q, dTokensReceived d = VNum (Fin q) /\ (q == inject_Z (dTokensSent d))%Q)
    /\ dresponse d = VUndef.
Proof.
  intros Hd Hp. unfold docRun.
  destruct (splitText env (splitterOf dp settings) text) as [total es].
  destruct (excerptLoop_dry env dp settings total es (mkDocSt w 0 0 (VInt 0) (Fin 0) VUndef 0)
              (inject_Z 0) Hd Hp eq_refl)
    as (d' & q' & H1 & H2 & H3 & H4 & H5 & H6).
  exists d'. rewrite H1, H6. cbn in *. split; [reflexivity|]. split; [lia|].
  split; [|exact H5].
  exists q'. split; [exact H3|].
  change (inject_Z 0) with 0%Q in H4. lra.
Qed.

Lemma docRun_dryrun_witness :
  let settings := mkSettings Demo.dryData None in
  (truthy (lookup "dryrun" (sdata settings)) = true /\ progress settings = None)
  /\ exists d,
    docRun Demo.validTwoParts Demo.docPrompt settings Demo.speech Demo.world0 = Ok d Demo.world0
    /\ count d = Z.of_nat (length (snd (splitText Demo.validTwoParts (splitterOf Demo.docPrompt settings) Demo.speech)))
    /\ (exists q, dTokensReceived d = VNum (Fin q) /\ (q == inject_Z (dTokensSent d))%Q)
    /\ dresponse d = VUndef.
Proof.
  cbv zeta. split; [split; reflexivity|].
  apply docRun_dryrun; reflexivity.
Defined.

Lemma newReservoir_bounds (limit : Z) (b : Q) :
  0 <= limit -> (0 <= b)%Q -> (b <= 1)%Q ->
  0 <= available (newReservoir limit b) <= limit
  /\ refreshAmount (newReservoir limit b) = available (newReservoir limit b).
Proof.
  intros Hl Hb0 Hb1. unfold newReservoir; cbn [available refreshAmount].
  assert (HL : (0 <= inject_Z limit)%Q) by (change (inject_Z 0 <= inject_Z limit)%Q; now rewrite <- Zle_Qle).
  split; [|reflexivity]. split.
  - rewrite <- (Qfloor_Z 0). apply Qfloor_resp_le.
    change (inject_Z 0) with 0%Q. now apply Qmult_le_0_compat.
  - rewrite <- (Qfloor_Z limit) at 2. apply Qfloor_resp_le.
    rewrite <- (Qmult_1_r (inject_Z limit)) at 2.
    rewrite !(Qmult_comm (inject_Z limit)). now apply Qmult_le_compat_r.
Qed.

(** [new RateLimiter({maxRequestsPerMinute, maxTokensPerMinute,
    bufferPercentage})]: for non-negative limits and a buffer percentage
    between 0 and 1, each reservoir starts full (its available count equals
    its refresh amount) at a value between 0 and its per-minute limit. *)
Theorem newRateLimiter_within_limits (maxRequestsPerMinute maxTokensPerMinute : Z)
    (bufferPercentage : Q)
    (Hr : 0 <= maxRequestsPerMinute) (Ht : 0 <= maxTokensPerMinute)
    (Hb0 : (0 <= bufferPercentage)%Q) (Hb1 : (bufferPercentage <= 1)%Q) :
  let l := newRateLimiter maxRequestsPerMinute maxTokensPerMinute bufferPercentage in
  0 <= available (requestLimiter l) <= maxRequestsPerMinute
  /\ refreshAmount (requestLimiter l) = available (requestLimiter l)
  /\ 0 <= available (tokenLimiter l) <= maxTokensPerMinute
  /\ refreshAmount (tokenLimiter l) = available (tokenLimiter l).
Proof.
  cbv zeta. unfold newRateLimiter; cbn [requestLimiter tokenLimiter].
  destruct (newReservoir_bounds maxRequestsPerMinute bufferPercentage Hr Hb0 Hb1) as [H1 H2].
  destruct (newReservoir_bounds maxTokensPerMinute bufferPercentage Ht Hb0 Hb1) as [H3 H4].
  auto.
Qed.

Lemma newRateLimiter_within_limits_witness :
  (0 <= 3500 /\ 0 <= 90000 /\ (0 <= defaultBufferPercentage)%Q /\ (defaultBufferPercentage <= 1)%Q)
  /\ available (requestLimiter (newRateLimiter 3500 90000 defaultBufferPercentage)) = 2800
  /\ (let l := newRateLimiter 3500 90000 defaultBufferPercentage in
      0 <= available (requestLimiter l) <= 3500
      /\ refreshAmount (requestLimiter l) = available (requestLimiter l)
      /\ 0 <= available (tokenLimiter l) <= 90000
      /\ refreshAmount (tokenLimiter l) = available (tokenLimiter l)).
Proof.
  split; [repeat split; try lia; vm_compute; discriminate|].
  split; [vm_compute; reflexivity|].
  apply newRateLimiter_within_limits; [lia | lia | vm_compute; discriminate | vm_compute; discriminate].
Defined.
